(** * vite-plugin-wasm-pack: the plugin of [src/index.ts], embedded and verified

    The plugin is one closure, [vitePluginWasmPack], that builds three lookup
    tables from the crate paths it is given and returns the hooks
    [resolveId], [load], [buildStart], [configureServer] and [buildEnd].
    The hooks are embedded below as functions over an explicit system state
    (the disk, the child processes started, the diagnostics handed to the
    host, the assets emitted). *)

From Stdlib Require Import Ascii String.
From stdpp Require Import gmap strings list fin_maps.

Local Open Scope string_scope.

(** ** JavaScript strings

    Strings are sequences of 8-bit code units; every string the plugin
    builds itself is ASCII. *)

Module JsString.

(** [s.indexOf(pat)], with [None] for [-1]. *)
Definition indexOf (pat s : string) : option nat := String.index 0 pat s.

(** [s.replace(pat, rep)] with a string pattern: only the first occurrence
    is replaced; [rep] holds no [$] pattern in this program. *)
Definition replace (pat rep s : string) : string :=
  match indexOf pat s with
  | Some i =>
      String.substring 0 i s ++ rep ++
      String.substring (i + String.length pat)
                       (String.length s - (i + String.length pat)) s
  | None => s
  end.

Definition lower_ascii (c : ascii) : ascii :=
  let n := nat_of_ascii c in
  if (65 <=? n)%nat && (n <=? 90)%nat then ascii_of_nat (n + 32) else c.

(** [s.toLowerCase()]. *)
Fixpoint toLowerCase (s : string) : string :=
  match s with
  | EmptyString => EmptyString
  | String c r => String (lower_ascii c) (toLowerCase r)
  end.

(** [s.endsWith(suf)]. *)
Definition endsWith (s suf : string) : bool :=
  (String.length suf <=? String.length s)%nat &&
  String.eqb
    (String.substring (String.length s - String.length suf)
                      (String.length suf) s) suf.

(** [s.split(sep)] for a one-character separator. *)
Fixpoint split (sep : ascii) (s : string) : list string :=
  match s with
  | EmptyString => [EmptyString]
  | String c r =>
      if Ascii.eqb c sep then EmptyString :: split sep r
      else match split sep r with
           | [] => [String c EmptyString]
           | x :: xs => String c x :: xs
           end
  end.

(** [parts.join(sep)]. *)
Fixpoint join (sep : string) (parts : list string) : string :=
  match parts with
  | [] => EmptyString
  | [x] => x
  | x :: xs => x ++ sep ++ join sep xs
  end.

Definition startsWithChar (c : ascii) (s : string) : bool :=
  match s with
  | String d _ => Ascii.eqb d c
  | EmptyString => false
  end.

Definition isEmpty (s : string) : bool :=
  match s with EmptyString => true | _ => false end.

End JsString.

(** ** Node's [path] module, POSIX flavour

    The plugin calls [path.basename], [path.resolve], [path.join] and
    [path.dirname].  They are library code; the definitions follow Node's
    [lib/path.js] (posix), read segment by segment. *)

Module Path.
Import JsString.

Definition slash : ascii := "/"%char.

(** One step of [normalizeString]: a segment closed by a separator is
    dropped when empty or [.]; [..] removes the last kept segment unless
    there is none or it is itself [..], in which case [..] is kept when the
    path is relative.  [acc] is the kept segments, last first. *)
Definition normStep (allowAboveRoot : bool) (acc : list string) (seg : string)
  : list string :=
  if String.eqb seg "" || String.eqb seg "." then acc
  else if String.eqb seg ".." then
    match acc with
    | [] => if allowAboveRoot then [".."] else []
    | top :: rest =>
        if String.eqb top ".." then
          (if allowAboveRoot then ".." :: acc else acc)
        else rest
    end
  else seg :: acc.

Definition normSegs (allowAboveRoot : bool) (segs : list string) : list string :=
  rev (fold_left (normStep allowAboveRoot) segs []).

Definition normalizeString (p : string) (allowAboveRoot : bool) : string :=
  join "/" (normSegs allowAboveRoot (split slash p)).

Definition endsWithSlash (p : string) : bool :=
  match last (list_ascii_of_string p) with
  | Some c => Ascii.eqb c slash
  | None => false
  end.

(** [path.normalize(p)]. *)
Definition normalize (p : string) : string :=
  if isEmpty p then "."
  else
    let isAbsolute := startsWithChar slash p in
    let trailingSeparator := endsWithSlash p in
    let q := normalizeString p (negb isAbsolute) in
    if isEmpty q then
      (if isAbsolute then "/" else if trailingSeparator then "./" else ".")
    else
      let q' := if trailingSeparator then q ++ "/" else q in
      if isAbsolute then "/" ++ q' else q'.

(** [path.join(...args)]: the non-empty arguments joined by [/], then
    normalized. *)
Definition nonEmpty (args : list string) : list string :=
  filter (fun a => a ≠ "") args.

Definition join (args : list string) : string :=
  match nonEmpty args with
  | [] => "."
  | parts => normalize (JsString.join "/" parts)
  end.

(** The loop of [path.resolve]: arguments are taken from the right, then
    the working directory, until an absolute one has been prepended. *)
Fixpoint resolveLoop (cwd : string) (rargs : list string)
         (resolvedPath : string) : string * bool :=
  match rargs with
  | [] =>
      if isEmpty cwd then (resolvedPath, false)
      else (cwd ++ "/" ++ resolvedPath, startsWithChar slash cwd)
  | a :: rest =>
      if isEmpty a then resolveLoop cwd rest resolvedPath
      else if startsWithChar slash a then (a ++ "/" ++ resolvedPath, true)
      else resolveLoop cwd rest (a ++ "/" ++ resolvedPath)
  end.

(** [path.resolve(...args)] in a process whose working directory is
    [cwd]. *)
Definition resolve (cwd : string) (args : list string) : string :=
  let '(resolvedPath, resolvedAbsolute) := resolveLoop cwd (rev args) "" in
  let q := normalizeString resolvedPath (negb resolvedAbsolute) in
  if resolvedAbsolute then "/" ++ q
  else if isEmpty q then "." else q.

(** [path.basename(p)] without a suffix: trailing separators are skipped,
    then the characters after the last separator are returned. *)
Definition basename (p : string) : string :=
  default "" (last (filter (fun s => s ≠ "") (split slash p))).

(** [path.dirname(p)], on the characters of [p] in reverse: skip the
    trailing separators, skip the last segment, cut at the separator
    before it (the first character is never looked at). *)
Fixpoint dropSlashes (r : list ascii) : list ascii :=
  match r with
  | c :: r' => if Ascii.eqb c slash then dropSlashes r' else r
  | [] => []
  end.

Fixpoint dropSegment (r : list ascii) : list ascii :=
  match r with
  | c :: r' => if Ascii.eqb c slash then r else dropSegment r'
  | [] => []
  end.

Definition dirname (p : string) : string :=
  match p with
  | EmptyString => "."
  | String c0 tl =>
      let hasRoot := Ascii.eqb c0 slash in
      match dropSegment (dropSlashes (rev (list_ascii_of_string tl))) with
      | [] => if hasRoot then "/" else "."
      | _ :: before =>
          match before with
          | [] => if hasRoot then "//" else String c0 ""
          | _ => String c0 (string_of_list_ascii (rev before))
          end
      end
  end.

(** A string without separator, and a proper path segment: not empty,
    not [.] or [..], without separator. *)
Fixpoint noSlash (s : string) : bool :=
  match s with
  | EmptyString => true
  | String c r => negb (Ascii.eqb c slash) && noSlash r
  end.

Definition isSegment (s : string) : bool :=
  negb (String.eqb s "") && negb (String.eqb s ".")
  && negb (String.eqb s "..") && noSlash s.

Definition isAbsolute (p : string) : bool := startsWithChar slash p.

(** The segments [path.resolve] joins. *)
Definition resolveSegs (cwd : string) (args : list string) : list string :=
  normSegs false (split slash (resolveLoop cwd (rev args) "").1).

(** [s1/s2/.../rest]: what the loop of [path.resolve] builds from
    relative arguments. *)
Definition slashed (segs : list string) (rest : string) : string :=
  foldr (fun x r => x ++ "/" ++ r) rest segs.

End Path.

(** ** JavaScript [Map]

    A [Map] keeps its entries in insertion order; [set] on a key that is
    already present replaces the value where the key stands. *)

Module JsMap.
Section map.
Context {V : Type}.

Definition t : Type := list (string * V).

Definition empty : t := [].

Fixpoint get (k : string) (m : t) : option V :=
  match m with
  | [] => None
  | (k', v) :: r => if decide (k' = k) then Some v else get k r
  end.

Definition has (k : string) (m : t) : bool :=
  match get k m with Some _ => true | None => false end.

Fixpoint set (k : string) (v : V) (m : t) : t :=
  match m with
  | [] => [(k, v)]
  | (k', v') :: r =>
      if decide (k' = k) then (k', v) :: r else (k', v') :: set k v r
  end.

Definition keys (m : t) : list string := map fst m.
End map.
Arguments t : clear implicits.
End JsMap.

(** ** The world outside the plugin *)

(** JSON values; a number is kept as its text. *)
#[warnings="-register-all"]
Inductive Json : Type :=
| JNull
| JBool (b : bool)
| JNum (text : string)
| JStr (s : string)
| JArr (items : list Json)
| JObj (props : list (string * Json)).

(** A manifest ([package.json]) is a JSON object: its properties in order.
    Assigning to a property replaces its value where it stands, or adds the
    property at the end. *)
Definition Manifest : Type := JsMap.t Json.

(** The disk.  [files] holds what a text or binary read returns, [manifests]
    the object [fs.readJson] returns (absent: the file is missing or does
    not parse; a manifest holding a JSON value other than an object is
    outside this model); a write to a path in [readonly] fails and leaves
    the file as it was.  Keys are absolute paths. *)
Record Disk : Type := {
  files : gmap string string;
  manifests : gmap string Manifest;
  readonly : gset string
}.

(** What [child_process.exec] hands to its callback; [error] is the text of
    the error object, absent when the child exited with code 0. *)
Record ExecResult : Type := {
  error : option string;
  stdout : string;
  stderr : string
}.

(** The environment of one plugin instance: the working directory of the
    process, [__dirname] of the compiled plugin, [chalk.bold], the effect of
    a shell command on the disk with its result, whether the host's
    [this.error] throws (Rollup's and Vite's does: its return type is
    [never]) and the text of a failed file operation on a path. *)
Record Env : Type := {
  cwd : string;
  __dirname : string;
  bold : string -> string;
  exec : string -> Disk -> Disk * ExecResult;
  errorThrows : bool;
  ioError : string -> string
}.

(** A settled promise. *)
Inductive Outcome (A : Type) : Type :=
| Resolved (a : A)
| Rejected (reason : string).
Arguments Resolved {A} a.
Arguments Rejected {A} reason.

(** How a synchronous call or an awaited [async] call without a value
    ends. *)
Inductive Completion : Type :=
| Normal
| Throw (msg : string).

Inductive Diag : Type :=
| Warn (msg : string)
| Error (msg : string).

(** The argument of [this.emitFile]; [type] is always ['asset']. *)
Record Asset : Type := {
  fileName : string;
  source : string
}.

(** The state the hooks act on: the disk, the commands started so far, the
    diagnostics given to the host, and the assets emitted. *)
Record Sys : Type := {
  disk : Disk;
  spawned : list string;
  diags : list Diag;
  assets : list Asset
}.

Definition nl : string := String (ascii_of_nat 10) "".

(** ** The plugin *)

Record CrateInfoType : Type := {
  path : string;
  name : string
}.

(** [crates: string[] | string]. *)
Inductive CratesArg : Type :=
| OneCrate (crate : string)
| ManyCrates (crates : list string).

(** The tables the closure captures. *)
Record Registry : Type := {
  cratePaths : list string;
  wasmMap : JsMap.t CrateInfoType;
  cratePathLookup : JsMap.t string;
  crateNameLookup : JsMap.t string
}.

Record Response : Type := {
  status : nat;
  headers : list (string * string);
  body : Outcome string
}.

(** What the middleware did with a request: answered it, called [next()],
    or neither. *)
Inductive Handled : Type :=
| Respond (r : Response)
| Next
| Unanswered.

Section Plugin.
Variable E : Env.

(** *** File operations *)

Definition fsKey (p : string) : string := Path.resolve (cwd E) [p].

Definition readFile (p : string) (d : Disk) : Outcome string :=
  match files d !! fsKey p with
  | Some content => Resolved content
  | None => Rejected (ioError E p)
  end.

Definition readJson (p : string) (d : Disk) : Outcome Manifest :=
  match manifests d !! fsKey p with
  | Some m => Resolved m
  | None => Rejected (ioError E p)
  end.

Definition writeJson (p : string) (m : Manifest) (d : Disk)
  : Disk * Outcome unit :=
  if decide (fsKey p ∈ readonly d) then (d, Rejected (ioError E p))
  else ({| files := files d;
           manifests := <[fsKey p := m]> (manifests d);
           readonly := readonly d |}, Resolved tt).

(** *** Host functions *)

Definition warn (msg : string) (s : Sys) : Sys :=
  {| disk := disk s; spawned := spawned s;
     diags := diags s ++ [Warn msg]; assets := assets s |}.

Definition error_ (msg : string) (s : Sys) : Sys * Completion :=
  ({| disk := disk s; spawned := spawned s;
      diags := diags s ++ [Error msg]; assets := assets s |},
   if errorThrows E then Throw msg else Normal).

Definition emitFile (a : Asset) (s : Sys) : Sys :=
  {| disk := disk s; spawned := spawned s;
     diags := diags s; assets := assets s ++ [a] |}.

(** *** [_crateName] *)

Definition _crateName (cratePath : string) : string :=
  Path.basename (Path.resolve (cwd E) [cratePath]).

(** *** [_runWasmPackBuild]

    [exec(command, callback)] is called without options, so the child
    runs in the working directory of the process. *)

Definition wasmPackPath : string :=
  Path.join [Path.dirname (__dirname E); "node_modules"; ".bin"; "wasm-pack"].

Definition command (outDir : string) : string :=
  wasmPackPath ++ " build --target web --out-dir " ++ outDir.

Definition _runWasmPackBuild (cratePath : string) (outDir : option string)
           (s : Sys) : Sys * Outcome string :=
  let outDir := default "pkg" outDir in
  let '(d, r) := exec E (command outDir) (disk s) in
  let s' := {| disk := d; spawned := spawned s ++ [command outDir];
               diags := diags s; assets := assets s |} in
  match error r with
  | Some e => (s', Rejected ("wasm-pack execution error: " ++ e))
  | None => (s', Resolved (stderr r))
  end.

(** *** Construction of the tables *)

Definition prefix : string := "@wasm-pack@".

Definition normalizeCrates (crates : CratesArg) : list string :=
  match crates with
  | OneCrate c => [c]
  | ManyCrates l => l
  end.

Definition wasmFileOf (crateName : string) : string := crateName ++ "_bg.wasm".

Definition register (r : Registry) (cratePath : string) : Registry :=
  let crateName := _crateName cratePath in
  let wasmFile := wasmFileOf crateName in
  let localPath := Path.resolve (cwd E) ["node_modules"; crateName; wasmFile] in
  {| cratePaths := cratePaths r;
     wasmMap := JsMap.set wasmFile {| path := localPath; name := crateName |}
                          (wasmMap r);
     cratePathLookup := JsMap.set cratePath wasmFile (cratePathLookup r);
     crateNameLookup := JsMap.set crateName wasmFile (crateNameLookup r) |}.

(** The package cache: [node_modules] of the working directory. *)
Definition cacheRoot : string := Path.resolve (cwd E) ["node_modules"].

(** What one iteration of the loop writes for [cratePath]. *)
Definition wasmFileFor (cratePath : string) : string :=
  wasmFileOf (_crateName cratePath).

Definition infoOf (cratePath : string) : CrateInfoType :=
  let crateName := _crateName cratePath in
  {| path := Path.resolve (cwd E)
               ["node_modules"; crateName; wasmFileOf crateName];
     name := crateName |}.

Definition vitePluginWasmPack (crates : CratesArg) : Registry :=
  let paths := normalizeCrates crates in
  fold_left register paths
    {| cratePaths := paths; wasmMap := JsMap.empty;
       cratePathLookup := JsMap.empty; crateNameLookup := JsMap.empty |}.

(** *** [resolveId] and [load] *)

Definition resolveId (R : Registry) (id : string) : option string :=
  if JsMap.has id (crateNameLookup R) then Some (prefix ++ id) else None.

(** [load] is [async]: it settles with the code, with [undefined]
    ([None]), or rejects when the read fails. *)
Definition load (id : string) (s : Sys) : Outcome (option string) :=
  if decide (JsString.indexOf prefix id = Some 0) then
    let id := JsString.replace prefix "" id in
    let modulejs := Path.join ["./node_modules"; id; id ++ ".js"] in
    match readFile modulejs (disk s) with
    | Resolved code => Resolved (Some code)
    | Rejected e => Rejected e
    end
  else Resolved None.

(** *** [buildStart] *)

Definition couldnt (crateName error : string) : string :=
  bold E ("vite-plugin-wasm-pack: Couldn't wasm-pack for Rust crate "
          ++ crateName ++ ": " ++ nl) ++ error.

Definition built (cratePath wasmPackOutput : string) : string :=
  bold E "wasm-pack: " ++ "crate " ++ cratePath ++ " built" ++ nl
  ++ wasmPackOutput.

Definition withDisk (d : Disk) (s : Sys) : Sys :=
  {| disk := d; spawned := spawned s; diags := diags s; assets := assets s |}.

Definition prepareBuild (cratePath : string) (s : Sys) : Sys * Completion :=
  let crateName := _crateName cratePath in
  let localPath := Path.resolve (cwd E) ["node_modules"; crateName] in
  match _runWasmPackBuild cratePath (Some localPath) s with
  | (s1, Rejected error) => error_ (couldnt crateName error) s1
  | (s1, Resolved wasmPackOutput) =>
      let s2 := warn (built cratePath wasmPackOutput) s1 in
      let pkgJsonPath := Path.join [localPath; "package.json"] in
      match readJson pkgJsonPath (disk s2) with
      | Rejected error => error_ (couldnt crateName error) s2
      | Resolved pkgJson =>
          let pkgJson := JsMap.set "type" (JStr "module") pkgJson in
          match writeJson pkgJsonPath pkgJson (disk s2) with
          | (_, Rejected error) => error_ (couldnt crateName error) s2
          | (d3, Resolved _) => (withDisk d3 s2, Normal)
          end
      end
  end.

(** The output directory and the manifest of a crate. *)
Definition localPathOf (cratePath : string) : string :=
  Path.resolve (cwd E) ["node_modules"; _crateName cratePath].

Definition pkgJsonPathOf (cratePath : string) : string :=
  Path.join [localPathOf cratePath; "package.json"].

(** [for await (const cratePath of cratePaths) await prepareBuild(cratePath)]:
    a rejection of [prepareBuild] leaves the loop and rejects
    [buildStart]. *)
Fixpoint buildLoop (paths : list string) (s : Sys) : Sys * Completion :=
  match paths with
  | [] => (s, Normal)
  | cratePath :: rest =>
      match prepareBuild cratePath s with
      | (s', Normal) => buildLoop rest s'
      | (s', Throw e) => (s', Throw e)
      end
  end.

Definition buildStart (R : Registry) (s : Sys) : Sys * Completion :=
  buildLoop (cratePaths R) s.

(** *** [configureServer]: the middleware *)

Definition middleware (R : Registry) (url : option string) (d : Disk)
  : Handled :=
  match url with
  | Some url =>
      let wasmFile := Path.basename url in
      match JsMap.get wasmFile (wasmMap R) with
      | Some entry =>
          if JsString.endsWith (JsString.toLowerCase wasmFile) ".wasm" then
            Respond {| status := 200;
                       headers :=
                         [("Cache-Control", "no-cache, no-store, must-revalidate");
                          ("Content-Type", "application/wasm")];
                       body := readFile (path entry) d |}
          else Next
      | None => Next
      end
  | None => Unanswered
  end.

(** *** [buildEnd] *)

Fixpoint emitAll (entries : list (string * CrateInfoType)) (s : Sys)
  : Sys * Completion :=
  match entries with
  | [] => (s, Normal)
  | (fileName, crate) :: rest =>
      match readFile (path crate) (disk s) with
      | Resolved bytes =>
          emitAll rest
            (emitFile {| fileName := "assets/" ++ fileName; source := bytes |} s)
      | Rejected e => (s, Throw e)
      end
  end.

Definition buildEnd (R : Registry) (s : Sys) : Sys * Completion :=
  emitAll (wasmMap R) s.

(** Asset [a] is the one emitted for the table entry [ke] on disk [d]. *)
Definition emittedFor (d : Disk) (ke : string * CrateInfoType) (a : Asset)
  : Prop :=
  fileName a = "assets/" ++ ke.1 /\
  readFile (path ke.2) d = Resolved (source a).

End Plugin.

(** The pass from [before] to [after] handed an error to the host. *)
Definition isError (d : Diag) : bool :=
  match d with Error _ => true | Warn _ => false end.

Definition reportedFailure (before after : Sys) : bool :=
  existsb isError (drop (length (diags before)) (diags after)).

(** ** A concrete project

    The process runs in [/proj/web]; the plugin is installed under its
    [node_modules].  The shell knows one crate, [demo]: the build whose
    output directory is [/proj/web/node_modules/demo] succeeds and leaves the
    glue code, the binary and a manifest there; any other command fails. *)

Definition demoTool : string :=
  "/proj/web/node_modules/vite-plugin-wasm-pack/node_modules/.bin/wasm-pack".

Definition demoCommand : string :=
  demoTool ++ " build --target web --out-dir /proj/web/node_modules/demo".

Definition demoManifest : Manifest :=
  [("name", JStr "demo"); ("version", JStr "0.1.0");
   ("files", JArr [JStr "demo_bg.wasm"; JStr "demo.js"])].

Definition demoExec (cmd : string) (d : Disk) : Disk * ExecResult :=
  if String.eqb cmd demoCommand then
    ({| files :=
          <["/proj/web/node_modules/demo/demo_bg.wasm" := "asm-bytes"]>
            (<["/proj/web/node_modules/demo/demo.js" := "export default init;"]>
               (files d));
        manifests :=
          <["/proj/web/node_modules/demo/package.json" := demoManifest]>
            (manifests d);
        readonly := readonly d |},
     {| error := None; stdout := ""; stderr := "[INFO]: done" |})
  else
    (d, {| error := Some "Error: Command failed";
           stdout := ""; stderr := "Error: crate directory is missing a `Cargo.toml` file" |}).

Definition demoEnv (throws : bool) : Env :=
  {| cwd := "/proj/web";
     __dirname := "/proj/web/node_modules/vite-plugin-wasm-pack/dist";
     bold := fun s => s;
     exec := demoExec;
     errorThrows := throws;
     ioError := fun p => "Error: ENOENT: no such file or directory, open '" ++ p ++ "'" |}.

Definition emptyDisk : Disk :=
  {| files := ∅; manifests := ∅; readonly := ∅ |}.

Definition sys0 : Sys :=
  {| disk := emptyDisk; spawned := []; diags := []; assets := [] |}.

(** The disk after a successful build of [demo]. *)
Definition builtDisk : Disk := (demoExec demoCommand emptyDisk).1.

(** A shell whose build of any crate leaves, in [/proj/web/node_modules/demo],
    a manifest that already carries [type: module]. *)
Definition moduleManifest : Manifest :=
  [("name", JStr "demo"); ("type", JStr "module"); ("main", JStr "demo.js")].

Definition moduleExec (cmd : string) (d : Disk) : Disk * ExecResult :=
  ({| files := files d;
      manifests :=
        <["/proj/web/node_modules/demo/package.json" := moduleManifest]>
          (manifests d);
      readonly := readonly d |},
   {| error := None; stdout := ""; stderr := "" |}).

Definition moduleEnv : Env :=
  {| cwd := "/proj/web";
     __dirname := "/proj/web/node_modules/vite-plugin-wasm-pack/dist";
     bold := fun s => s;
     exec := moduleExec;
     errorThrows := true;
     ioError := fun p => "Error: ENOENT: no such file or directory, open '" ++ p ++ "'" |}.

(** A shell whose commands all succeed and leave the disk as it is: no
    manifest is produced. *)
Definition bareExec (cmd : string) (d : Disk) : Disk * ExecResult :=
  (d, {| error := None; stdout := ""; stderr := "" |}).

Definition bareEnv : Env :=
  {| cwd := "/proj/web";
     __dirname := "/proj/web/node_modules/vite-plugin-wasm-pack/dist";
     bold := fun s => s;
     exec := bareExec;
     errorThrows := false;
     ioError := fun p => "Error: ENOENT: no such file or directory, open '" ++ p ++ "'" |}.

(** A state in which the manifest of [demo] cannot be written. *)
Definition lockedSys : Sys :=
  {| disk := {| files := ∅; manifests := ∅;
                readonly := {["/proj/web/node_modules/demo/package.json"]} |};
     spawned := []; diags := []; assets := [] |}.

(** * Properties *)

(** ** Strings *)

Section StringFacts.
Import JsString.

Lemma app_nil_s (b : string) : "" ++ b = b.
Proof. reflexivity. Qed.

Lemma app_cons_s (c : ascii) (a b : string) :
  String c a ++ b = String c (a ++ b).
Proof. reflexivity. Qed.

Lemma substring_all (s : string) :
  String.substring 0 (String.length s) s = s.
Proof. induction s as [|c s IH]; simpl; [done | by rewrite IH]. Qed.

Lemma substring_skip (a b : string) :
  String.substring (String.length a) (String.length b) (a ++ b) = b.
Proof. induction a as [|c a IH]; simpl; [apply substring_all | exact IH]. Qed.

Lemma length_app (a b : string) :
  String.length (a ++ b) = String.length a + String.length b.
Proof. induction a as [|c a IH]; simpl; [done | by rewrite IH]. Qed.

Lemma endsWith_app (a suf : string) : endsWith (a ++ suf) suf = true.
Proof.
  unfold endsWith. rewrite length_app.
  replace (String.length a + String.length suf - String.length suf)
    with (String.length a) by lia.
  rewrite substring_skip, String.eqb_refl, andb_true_r.
  apply Nat.leb_le. lia.
Qed.

Lemma toLowerCase_app (a b : string) :
  toLowerCase (a ++ b) = toLowerCase a ++ toLowerCase b.
Proof. induction a as [|c a IH]; simpl; [done | by rewrite IH]. Qed.

Lemma app_assoc_s (a b c : string) : (a ++ b) ++ c = a ++ (b ++ c).
Proof.
  induction a as [|x a IH]; [done |].
  by rewrite !app_cons_s, IH.
Qed.

(** An artifact file name passes the extension test of the middleware,
    whatever the crate name. *)
Lemma wasmFile_endsWith (n : string) :
  endsWith (toLowerCase (n ++ "_bg.wasm")) ".wasm" = true.
Proof.
  rewrite toLowerCase_app.
  change (toLowerCase "_bg.wasm") with ("_bg" ++ ".wasm").
  rewrite <- app_assoc_s. apply endsWith_app.
Qed.

Lemma prefix_app (a b : string) : String.prefix a (a ++ b) = true.
Proof.
  induction a as [|c a IH]; simpl; [by destruct b |].
  destruct (ascii_dec c c); [exact IH | done].
Qed.

Lemma index0_prefix (pat s : string) :
  String.index 0 pat s = Some 0 <-> String.prefix pat s = true.
Proof.
  destruct s as [|c s]; simpl.
  - destruct pat; simpl; split; congruence.
  - destruct pat as [|p pat]; [simpl; tauto |].
    cbn [String.prefix].
    destruct (ascii_dec p c) as [->|Hne].
    + destruct (String.prefix pat s); [tauto |].
      destruct (String.index 0 (String c pat) s); split; congruence.
    + destruct (String.index 0 (String p pat) s); split; congruence.
Qed.

Lemma prefix_split (pat s : string) :
  String.prefix pat s = true <-> exists r, s = pat ++ r.
Proof.
  split.
  - revert s. induction pat as [|p pat IH]; intros s H.
    + exists s. done.
    + destruct s as [|c s]; [done |]. simpl in H.
      destruct (ascii_dec p c) as [->|]; [|done].
      destruct (IH _ H) as [r ->]. by exists r.
  - intros [r ->]. apply prefix_app.
Qed.

Lemma replace_prefix (pat r : string) :
  replace pat "" (pat ++ r) = r.
Proof.
  unfold replace, indexOf.
  assert (H : String.index 0 pat (pat ++ r) = Some 0)
    by (apply index0_prefix, prefix_app).
  rewrite H. simpl. rewrite length_app.
  replace (String.length pat + String.length r - String.length pat)
    with (String.length r) by lia.
  rewrite substring_skip. by destruct (pat ++ r).
Qed.

Lemma string_app_inv_tail (a b suf : string) : a ++ suf = b ++ suf -> a = b.
Proof.
  revert b. induction a as [|c a IH]; intros [|d b] Heq; [done | | |].
  - exfalso. apply (f_equal String.length) in Heq.
    rewrite app_nil_s, app_cons_s in Heq. simpl in Heq.
    rewrite length_app in Heq. lia.
  - exfalso. apply (f_equal String.length) in Heq.
    rewrite app_nil_s, app_cons_s in Heq. simpl in Heq.
    rewrite length_app in Heq. lia.
  - rewrite !app_cons_s in Heq. injection Heq as -> Heq.
    f_equal. by apply IH.
Qed.
End StringFacts.

(** ** Maps *)

Section MapFacts.
Context {V : Type}.
Implicit Types (m : JsMap.t V) (k : string) (v : V).

Lemma get_set_eq m k v : JsMap.get k (JsMap.set k v m) = Some v.
Proof.
  induction m as [|[k' v'] m IH]; simpl.
  - by rewrite decide_True.
  - destruct (decide (k' = k)) as [->|Hne]; simpl.
    + by rewrite decide_True.
    + by rewrite decide_False.
Qed.

Lemma get_set_ne m k k' v :
  k ≠ k' -> JsMap.get k' (JsMap.set k v m) = JsMap.get k' m.
Proof.
  intros Hne. induction m as [|[k0 v0] m IH]; simpl.
  - by rewrite decide_False.
  - destruct (decide (k0 = k)) as [->|Hk]; simpl.
    + by rewrite !decide_False.
    + destruct (decide (k0 = k')); [done | exact IH].
Qed.

Lemma keys_set m k v :
  JsMap.keys (JsMap.set k v m) =
  if JsMap.has k m then JsMap.keys m else (JsMap.keys m ++ [k])%list.
Proof.
  unfold JsMap.has. induction m as [|[k0 v0] m IH]; simpl; [done |].
  destruct (decide (k0 = k)) as [->|Hk]; simpl; [done |].
  rewrite IH. by destruct (JsMap.get k m).
Qed.

Lemma has_keys m k : JsMap.has k m = true <-> k ∈ JsMap.keys m.
Proof.
  unfold JsMap.has. induction m as [|[k0 v0] m IH]; simpl.
  - split; [done | by intros ?%elem_of_nil].
  - destruct (decide (k0 = k)) as [->|Hk].
    + split; [intros _; left | done].
    + rewrite IH. split; [by right |].
      intros [?|?]%elem_of_cons; [congruence | done].
Qed.

Lemma get_elem_of m k v : JsMap.get k m = Some v -> (k, v) ∈ m.
Proof.
  induction m as [|[k0 v0] m IH]; simpl; [done |].
  destruct (decide (k0 = k)) as [->|Hk].
  - intros [= ->]. left.
  - intros H. right. by apply IH.
Qed.

Lemma NoDup_keys_set m k v :
  NoDup (JsMap.keys m) -> NoDup (JsMap.keys (JsMap.set k v m)).
Proof.
  intros Hnd. rewrite keys_set.
  destruct (JsMap.has k m) eqn:Hhas; [done |].
  apply NoDup_app. split_and!; [done | | apply NoDup_singleton].
  intros x Hx ->%list_elem_of_singleton.
  apply has_keys in Hx. congruence.
Qed.

(** Read of a key in a unique-key map is decided by membership. *)
Lemma elem_of_get m k v :
  NoDup (JsMap.keys m) -> (k, v) ∈ m -> JsMap.get k m = Some v.
Proof.
  induction m as [|[k0 v0] m IH]; simpl; [by intros _ ?%elem_of_nil |].
  intros [Hnotin Hnd]%NoDup_cons [Heq|Hin]%elem_of_cons.
  - injection Heq as -> ->. by rewrite decide_True.
  - destruct (decide (k0 = k)) as [->|Hk]; [|by apply IH].
    exfalso. apply Hnotin. unfold JsMap.keys.
    apply list_elem_of_fmap. by exists (k, v).
Qed.

(** A table filled by a loop of [set]: each key reads the value of the
    last iteration that wrote it. *)
Lemma get_fold_set {X : Type} (kf : X -> string) (vf : X -> V)
      (l : list X) m k :
  JsMap.get k (fold_left (fun m x => JsMap.set (kf x) (vf x) m) l m) =
  match last (filter (fun x => kf x = k) l) with
  | Some x => Some (vf x)
  | None => JsMap.get k m
  end.
Proof.
  induction l as [|x l IH] using rev_ind; [done |].
  rewrite fold_left_app, filter_app. simpl.
  rewrite filter_cons, filter_nil.
  destruct (decide (kf x = k)) as [<-|Hne].
  - by rewrite last_snoc, get_set_eq.
  - by rewrite app_nil_r, get_set_ne.
Qed.

Lemma NoDup_keys_fold_set {X : Type} (kf : X -> string) (vf : X -> V)
      (l : list X) m :
  NoDup (JsMap.keys m) ->
  NoDup (JsMap.keys (fold_left (fun m x => JsMap.set (kf x) (vf x) m) l m)).
Proof.
  revert m. induction l as [|x l IH]; intros m Hnd; simpl; [done |].
  by apply IH, NoDup_keys_set.
Qed.
End MapFacts.

(** ** The tables *)

Section RegistryFacts.
Variable E : Env.

Lemma fold_register (l : list string) (R : Registry) :
  fold_left (register E) l R =
  {| cratePaths := cratePaths R;
     wasmMap := fold_left (fun m p => JsMap.set (wasmFileFor E p) (infoOf E p) m)
                          l (wasmMap R);
     cratePathLookup :=
       fold_left (fun m p => JsMap.set p (wasmFileFor E p) m)
                 l (cratePathLookup R);
     crateNameLookup :=
       fold_left (fun m p => JsMap.set (_crateName E p) (wasmFileFor E p) m)
                 l (crateNameLookup R) |}.
Proof.
  revert R. induction l as [|p l IH]; intros R; simpl; [by destruct R |].
  by rewrite IH.
Qed.

Lemma cratePaths_plugin (crates : CratesArg) :
  cratePaths (vitePluginWasmPack E crates) = normalizeCrates crates.
Proof. unfold vitePluginWasmPack. by rewrite fold_register. Qed.

Lemma wasmMap_get (crates : CratesArg) (k : string) :
  JsMap.get k (wasmMap (vitePluginWasmPack E crates)) =
  infoOf E <$>
    last (filter (fun p => wasmFileFor E p = k) (normalizeCrates crates)).
Proof.
  unfold vitePluginWasmPack. rewrite fold_register. simpl.
  rewrite get_fold_set. by destruct (last _).
Qed.

Lemma cratePathLookup_get (crates : CratesArg) (k : string) :
  JsMap.get k (cratePathLookup (vitePluginWasmPack E crates)) =
  wasmFileFor E <$> last (filter (fun p => p = k) (normalizeCrates crates)).
Proof.
  unfold vitePluginWasmPack. rewrite fold_register. simpl.
  rewrite get_fold_set. by destruct (last _).
Qed.

Lemma crateNameLookup_get (crates : CratesArg) (k : string) :
  JsMap.get k (crateNameLookup (vitePluginWasmPack E crates)) =
  wasmFileFor E <$>
    last (filter (fun p => _crateName E p = k) (normalizeCrates crates)).
Proof.
  unfold vitePluginWasmPack. rewrite fold_register. simpl.
  rewrite get_fold_set. by destruct (last _).
Qed.

Lemma wasmMap_NoDup (crates : CratesArg) :
  NoDup (JsMap.keys (wasmMap (vitePluginWasmPack E crates))).
Proof.
  unfold vitePluginWasmPack. rewrite fold_register. simpl.
  apply NoDup_keys_fold_set. constructor.
Qed.

Lemma last_filter_Some {X : Type} (P : X -> Prop) `{!forall x, Decision (P x)}
      (l : list X) (x : X) :
  x ∈ l -> P x -> exists y, last (filter P l) = Some y /\ P y /\ y ∈ l.
Proof.
  intros Hin HP.
  assert (Hf : x ∈ filter P l) by (by apply list_elem_of_filter).
  destruct (last (filter P l)) as [y|] eqn:Hlast.
  - exists y. split; [done |].
    apply last_Some_elem_of in Hlast.
    by apply list_elem_of_filter in Hlast.
  - apply last_None in Hlast. rewrite Hlast in Hf. by apply elem_of_nil in Hf.
Qed.

Lemma last_filter_None {X : Type} (P : X -> Prop) `{!forall x, Decision (P x)}
      (l : list X) :
  last (filter P l) = None <-> forall x, x ∈ l -> ~ P x.
Proof.
  rewrite last_None. split.
  - intros Hnil x Hin HP.
    assert (Hf : x ∈ filter P l) by (by apply list_elem_of_filter).
    rewrite Hnil in Hf. by apply elem_of_nil in Hf.
  - intros Hall. destruct (filter P l) as [|y r] eqn:Hf; [done |].
    assert (Hy : y ∈ filter P l) by (rewrite Hf; left).
    apply list_elem_of_filter in Hy as [HP Hin]. by destruct (Hall y Hin).
Qed.

(** The artifact table holds, under the artifact file name of a registered
    crate path, what that path derives; that key passes the extension
    test of the middleware. *)
Lemma registry_tables_entry (crates : CratesArg) (p : string) :
  p ∈ normalizeCrates crates ->
  JsMap.get (wasmFileFor E p) (wasmMap (vitePluginWasmPack E crates)) =
    Some (infoOf E p) /\
  JsString.endsWith (JsString.toLowerCase (wasmFileFor E p)) ".wasm" = true.
Proof.
  intros Hin. split; [|apply wasmFile_endsWith].
  rewrite wasmMap_get.
  destruct (last_filter_Some (fun q => wasmFileFor E q = wasmFileFor E p)
              _ p Hin eq_refl) as (y & -> & Hy & _).
  simpl. unfold wasmFileFor, wasmFileOf in Hy.
  apply string_app_inv_tail in Hy. unfold infoOf. by rewrite Hy.
Qed.
End RegistryFacts.

(** ** [resolveId] *)

(** C5: [resolveId id] is the prefixed identifier exactly when [id] is the
    name derived from one of the registered crate paths, and [null]
    otherwise; with no crate registered it is always [null]. *)
Theorem resolveId_registered (E : Env) (crates : CratesArg) (id : string) :
  let R := vitePluginWasmPack E crates in
  (resolveId R id = Some (prefix ++ id) <->
     exists p, p ∈ normalizeCrates crates /\ _crateName E p = id) /\
  (resolveId R id = None <->
     ~ exists p, p ∈ normalizeCrates crates /\ _crateName E p = id) /\
  resolveId (vitePluginWasmPack E (ManyCrates [])) id = None.
Proof.
  intros R. subst R. unfold resolveId, JsMap.has.
  rewrite crateNameLookup_get.
  destruct (last (filter (fun p => _crateName E p = id) (normalizeCrates crates)))
    as [y|] eqn:Hlast; simpl.
  - apply last_Some_elem_of, list_elem_of_filter in Hlast as [Hy Hin].
    split_and!; [| |done].
    + split; [intros _; by exists y | done].
    + split; [done |]. intros Hno. destruct Hno. by exists y.
  - pose proof (proj1 (last_filter_None _ _) Hlast) as Hnone.
    split_and!; [| |done].
    + split; [done |]. intros (p & Hin & Hp). by destruct (Hnone p Hin).
    + split; [|done]. intros _ (p & Hin & Hp). by destruct (Hnone p Hin).
Qed.

(** ** Paths *)

Section PathFacts.
Import JsString Path.

Lemma split_nonnil (s : string) : split slash s <> [].
Proof.
  destruct s as [|c s]; simpl; [done |].
  destruct (Ascii.eqb c slash); [done |]. by destruct (split slash s).
Qed.

Lemma split_app_slash (a b : string) :
  split slash (a ++ "/" ++ b) = (split slash a ++ split slash b)%list.
Proof.
  induction a as [|c a IH].
  - reflexivity.
  - rewrite app_cons_s. cbn [split].
    destruct (Ascii.eqb c slash); [by rewrite IH |].
    rewrite IH. pose proof (split_nonnil a) as Hnn.
    by destruct (split slash a).
Qed.

Lemma split_noSlash (s : string) : noSlash s = true -> split slash s = [s].
Proof.
  induction s as [|c s IH]; simpl; [done |].
  intros [Hc Hs]%andb_true_iff. apply negb_true_iff in Hc.
  by rewrite Hc, IH.
Qed.

Lemma split_all_noSlash (s : string) :
  Forall (fun x => noSlash x = true) (split slash s).
Proof.
  induction s as [|c s IH]; simpl; [by repeat constructor |].
  destruct (Ascii.eqb c slash) eqn:Hc; [by constructor |].
  destruct (split slash s) as [|x xs].
  - repeat constructor. simpl. by rewrite Hc.
  - inversion IH; subst. constructor; [|done]. simpl. by rewrite Hc.
Qed.

Lemma isSegment_spec (s : string) :
  isSegment s = true <->
  s <> "" /\ s <> "." /\ s <> ".." /\ noSlash s = true.
Proof.
  unfold isSegment. rewrite !andb_true_iff, !negb_true_iff, !String.eqb_neq.
  tauto.
Qed.

Lemma normStep_segment (allow : bool) (acc : list string) (seg : string) :
  isSegment seg = true -> normStep allow acc seg = seg :: acc.
Proof.
  intros (H1 & H2 & H3 & _)%isSegment_spec. unfold normStep.
  apply String.eqb_neq in H1, H2, H3. by rewrite H1, H2, H3.
Qed.

Lemma fold_normStep_segments (allow : bool) (segs acc : list string) :
  Forall (fun x => isSegment x = true) segs ->
  fold_left (normStep allow) segs acc = (rev segs ++ acc)%list.
Proof.
  revert acc. induction segs as [|x segs IH]; intros acc Hall; [done |].
  inversion Hall; subst. simpl.
  rewrite normStep_segment by done. rewrite IH by done.
  by rewrite <- app_assoc.
Qed.

(** Without leave to climb above the root, normalization keeps proper
    segments only. *)
Lemma normStep_false_segments (acc : list string) (seg : string) :
  noSlash seg = true ->
  Forall (fun x => isSegment x = true) acc ->
  Forall (fun x => isSegment x = true) (normStep false acc seg).
Proof.
  intros Hns Hacc. unfold normStep.
  destruct (String.eqb seg "") eqn:H1; [done |].
  destruct (String.eqb seg ".") eqn:H2; [done |]. simpl.
  destruct (String.eqb seg "..") eqn:H3.
  - destruct acc as [|top rest]; [done |].
    destruct (String.eqb top ".."); [done |]. by inversion Hacc.
  - constructor; [|done]. apply isSegment_spec.
    apply String.eqb_neq in H1, H2, H3. done.
Qed.

Lemma fold_normStep_false_segments (segs acc : list string) :
  Forall (fun x => noSlash x = true) segs ->
  Forall (fun x => isSegment x = true) acc ->
  Forall (fun x => isSegment x = true) (fold_left (normStep false) segs acc).
Proof.
  revert acc. induction segs as [|x segs IH]; intros acc Hns Hacc; [done |].
  inversion Hns; subst. simpl. apply IH; [done |].
  by apply normStep_false_segments.
Qed.

Lemma normSegs_false_segments (p : string) :
  Forall (fun x => isSegment x = true) (normSegs false (split slash p)).
Proof.
  unfold normSegs. apply Forall_rev.
  apply fold_normStep_false_segments; [apply split_all_noSlash | constructor].
Qed.

Lemma join_snoc (l : list string) (x : string) :
  l <> [] -> JsString.join "/" (l ++ [x]) = JsString.join "/" l ++ "/" ++ x.
Proof.
  induction l as [|y l IH]; [done |]. intros _.
  destruct l as [|z l]; [reflexivity |].
  change (JsString.join "/" ((y :: z :: l) ++ [x]))
    with (y ++ "/" ++ JsString.join "/" ((z :: l) ++ [x])).
  rewrite IH by done.
  change (JsString.join "/" (y :: z :: l))
    with (y ++ "/" ++ JsString.join "/" (z :: l)).
  by rewrite !app_assoc_s.
Qed.

Lemma split_join (segs : list string) :
  segs <> [] -> Forall (fun x => noSlash x = true) segs ->
  split slash (JsString.join "/" segs) = segs.
Proof.
  induction segs as [|x segs IH]; [done |]. intros _ Hall.
  inversion Hall as [|? ? Hx Hrest]; subst.
  destruct segs as [|y segs]; [by apply split_noSlash |].
  change (JsString.join "/" (x :: y :: segs))
    with (x ++ "/" ++ JsString.join "/" (y :: segs)).
  rewrite split_app_slash, IH by done. by rewrite split_noSlash.
Qed.

Lemma isSegment_noSlash (x : string) : isSegment x = true -> noSlash x = true.
Proof. by intros (_ & _ & _ & ?)%isSegment_spec. Qed.

Lemma isSegment_nonempty (x : string) : isSegment x = true -> x <> "".
Proof. by intros (? & _)%isSegment_spec. Qed.

Lemma filter_nonempty_segments (segs : list string) :
  Forall (fun x => isSegment x = true) segs ->
  filter (fun s => s ≠ "") segs = segs.
Proof.
  induction 1 as [|x segs Hx _ IH]; [done |].
  rewrite filter_cons, decide_True by (by apply isSegment_nonempty).
  by rewrite IH.
Qed.

(** The base name of an absolute path built from proper segments is its
    last segment; the root has the empty base name. *)
Lemma basename_abs (segs : list string) :
  Forall (fun x => isSegment x = true) segs ->
  basename ("/" ++ JsString.join "/" segs) = default "" (last segs).
Proof.
  intros Hall. unfold basename.
  change ("/" ++ JsString.join "/" segs)
    with ("" ++ "/" ++ JsString.join "/" segs).
  rewrite split_app_slash.
  destruct (decide (segs = [])) as [->|Hne]; [reflexivity |].
  rewrite split_join; [| done |].
  - change (split slash "") with [""]. simpl.
    rewrite filter_cons, decide_False by (intros H; by apply H).
    by rewrite filter_nonempty_segments.
  - eapply Forall_impl; [exact Hall |]. apply isSegment_noSlash.
Qed.

Lemma resolveLoop_abs (cwd : string) (rargs : list string) (acc : string) :
  isAbsolute cwd = true -> (resolveLoop cwd rargs acc).2 = true.
Proof.
  intros Habs. revert acc. induction rargs as [|a rest IH]; intros acc; simpl.
  - destruct cwd; [done |]. exact Habs.
  - destruct (isEmpty a); [apply IH |].
    destruct (startsWithChar slash a); [done | apply IH].
Qed.

(** In a process with an absolute working directory [path.resolve] returns
    [/] followed by proper segments joined by [/]. *)
Lemma resolve_abs (cwd : string) (args : list string) :
  isAbsolute cwd = true ->
  exists segs, Forall (fun x => isSegment x = true) segs /\
               resolve cwd args = "/" ++ JsString.join "/" segs.
Proof.
  intros Habs. unfold resolve.
  pose proof (resolveLoop_abs cwd (rev args) "" Habs) as Hloop.
  destruct (resolveLoop cwd (rev args) "") as [str b]. simpl in Hloop. subst b.
  exists (normSegs false (split slash str)). split; [|done].
  apply normSegs_false_segments.
Qed.

Lemma resolve_eq (cwd : string) (args : list string) :
  isAbsolute cwd = true ->
  resolve cwd args = "/" ++ JsString.join "/" (resolveSegs cwd args).
Proof.
  intros Habs. unfold resolve, resolveSegs.
  pose proof (resolveLoop_abs cwd (rev args) "" Habs) as Hloop.
  destruct (resolveLoop cwd (rev args) "") as [str b]. simpl in *. by subst b.
Qed.

Lemma resolveSegs_segments_all (cwd : string) (args : list string) :
  Forall (fun x => isSegment x = true) (resolveSegs cwd args).
Proof. apply normSegs_false_segments. Qed.

Lemma isSegment_head (x : string) :
  isSegment x = true -> isEmpty x = false /\ startsWithChar slash x = false.
Proof.
  intros (Hne & _ & _ & Hns)%isSegment_spec.
  destruct x as [|c x]; [done |]. simpl in *.
  apply andb_true_iff in Hns as [Hc _]. by apply negb_true_iff in Hc.
Qed.

Lemma resolveLoop_nil_abs (cwd acc : string) :
  isAbsolute cwd = true -> resolveLoop cwd [] acc = (cwd ++ "/" ++ acc, true).
Proof.
  intros Habs. destruct cwd; [done |].
  unfold isAbsolute in Habs. cbn [resolveLoop isEmpty]. by rewrite Habs.
Qed.

Lemma resolveLoop_cons (cwd a : string) (rest : list string) (acc : string) :
  resolveLoop cwd (a :: rest) acc =
  if isEmpty a then resolveLoop cwd rest acc
  else if startsWithChar slash a then (a ++ "/" ++ acc, true)
       else resolveLoop cwd rest (a ++ "/" ++ acc).
Proof. reflexivity. Qed.

Lemma resolveLoop_segments (cwd : string) (segs : list string) (acc : string) :
  Forall (fun x => isSegment x = true) segs ->
  resolveLoop cwd (rev segs) acc = resolveLoop cwd [] (slashed segs acc).
Proof.
  revert acc. induction segs as [|x segs IH] using rev_ind; intros acc Hall.
  - done.
  - apply Forall_app in Hall as [Hsegs Hx]. inversion Hx; subst.
    rewrite rev_unit, resolveLoop_cons.
    destruct (isSegment_head x) as [-> ->]; [done |].
    rewrite IH by done. unfold slashed. by rewrite foldr_app.
Qed.

Lemma split_slashed (segs : list string) (rest : string) :
  Forall (fun x => isSegment x = true) segs ->
  split slash (slashed segs rest) = (segs ++ split slash rest)%list.
Proof.
  induction 1 as [|x segs Hx _ IH]; [done |].
  cbn [slashed foldr]. fold (slashed segs rest).
  rewrite split_app_slash, IH, split_noSlash by (by apply isSegment_noSlash).
  done.
Qed.

Lemma normStep_empty (allow : bool) (acc : list string) :
  normStep allow acc "" = acc.
Proof. reflexivity. Qed.

Lemma normSegs_app (pre segs : list string) :
  Forall (fun x => isSegment x = true) segs ->
  normSegs false (pre ++ segs ++ [""]) = (normSegs false pre ++ segs)%list.
Proof.
  intros Hall. unfold normSegs.
  rewrite !fold_left_app, (fold_normStep_segments false segs) by done.
  cbn [fold_left]. rewrite normStep_empty.
  by rewrite rev_app_distr, rev_involutive.
Qed.

Lemma resolveSegs_nil (cwd : string) :
  isAbsolute cwd = true ->
  resolveSegs cwd [] = normSegs false (split slash cwd).
Proof.
  intros Habs. unfold resolveSegs. simpl rev.
  rewrite resolveLoop_nil_abs by done. simpl fst.
  rewrite split_app_slash.
  change (split slash "") with ([] ++ [""])%list.
  by rewrite normSegs_app, app_nil_r.
Qed.

(** Proper segments given to [path.resolve] are appended to the working
    directory as they are. *)
Lemma resolveSegs_segments (cwd : string) (segs : list string) :
  isAbsolute cwd = true ->
  Forall (fun x => isSegment x = true) segs ->
  resolveSegs cwd segs = (resolveSegs cwd [] ++ segs)%list.
Proof.
  intros Habs Hall. rewrite resolveSegs_nil by done. unfold resolveSegs.
  rewrite resolveLoop_segments, resolveLoop_nil_abs by done. simpl fst.
  rewrite split_app_slash, split_slashed by done.
  change (split slash "") with [""].
  by rewrite normSegs_app.
Qed.

(** So is a relative path made of proper segments. *)
Lemma resolveSegs_joined (cwd : string) (segs : list string) :
  isAbsolute cwd = true -> segs <> [] ->
  Forall (fun x => isSegment x = true) segs ->
  resolveSegs cwd [JsString.join "/" segs] = (resolveSegs cwd [] ++ segs)%list.
Proof.
  intros Habs Hne Hall. rewrite resolveSegs_nil by done. unfold resolveSegs.
  simpl rev. rewrite resolveLoop_cons.
  assert (Hhead : isEmpty (JsString.join "/" segs) = false /\
                  startsWithChar slash (JsString.join "/" segs) = false).
  { destruct segs as [|x segs]; [done |].
    apply Forall_cons in Hall as [Hx _].
    destruct (isSegment_head x Hx) as [Hx1 Hx2].
    destruct x as [|c x]; [done |].
    destruct segs; [done |]. done. }
  destruct Hhead as [-> ->].
  rewrite resolveLoop_nil_abs by done. simpl fst.
  rewrite !split_app_slash, split_join.
  - change (split slash "") with [""]. by rewrite normSegs_app.
  - done.
  - eapply Forall_impl; [exact Hall | apply isSegment_noSlash].
Qed.

Lemma noSlash_app (a b : string) :
  noSlash (a ++ b) = noSlash a && noSlash b.
Proof.
  induction a as [|c a IH]; [done |].
  rewrite app_cons_s. simpl. by rewrite IH, andb_assoc.
Qed.

(** A proper segment stays one when a separator-free suffix of three or
    more characters is appended. *)
Lemma isSegment_suffix (n suf : string) :
  isSegment n = true -> noSlash suf = true -> 3 <= String.length suf ->
  isSegment (n ++ suf) = true.
Proof.
  intros (_ & _ & _ & Hns)%isSegment_spec Hsuf Hlen.
  apply isSegment_spec.
  assert (Hl : 3 <= String.length (n ++ suf)) by (rewrite length_app; lia).
  split_and!.
  - intros Heq. rewrite Heq in Hl. simpl in Hl. lia.
  - intros Heq. rewrite Heq in Hl. simpl in Hl. lia.
  - intros Heq. rewrite Heq in Hl. simpl in Hl. lia.
  - by rewrite noSlash_app, Hns, Hsuf.
Qed.
End PathFacts.

(** ** Where the plugin looks on disk *)

Section Layout.
Import JsString Path.
Variable E : Env.
Hypothesis cwd_abs : isAbsolute (cwd E) = true.

(** The crate name is the last segment of the resolved crate path. *)
Lemma crateName_last (p : string) :
  _crateName E p = default "" (last (resolveSegs (cwd E) [p])).
Proof.
  unfold _crateName. rewrite resolve_eq by done.
  apply basename_abs, resolveSegs_segments_all.
Qed.

Lemma crateName_segment (p : string) :
  _crateName E p <> "" -> isSegment (_crateName E p) = true.
Proof.
  rewrite crateName_last.
  pose proof (resolveSegs_segments_all (cwd E) [p]) as Hall.
  destruct (last (resolveSegs (cwd E) [p])) as [x|] eqn:Hlast; [|done].
  intros _. simpl. apply last_Some_elem_of in Hlast.
  by apply (proj1 (Forall_forall _ _) Hall).
Qed.

Lemma under_cacheRoot (a b : string) :
  isSegment a = true -> isSegment b = true ->
  resolve (cwd E) ["node_modules"; a; b] = cacheRoot E ++ "/" ++ a ++ "/" ++ b.
Proof.
  intros Ha Hb. unfold cacheRoot. rewrite !resolve_eq by done.
  rewrite (resolveSegs_segments (cwd E) ["node_modules"; a; b]) by
    (done || by repeat constructor).
  rewrite (resolveSegs_segments (cwd E) ["node_modules"]) by
    (done || by repeat constructor).
  set (S := resolveSegs (cwd E) []).
  replace (S ++ ["node_modules"; a; b])%list
    with (((S ++ ["node_modules"]) ++ [a]) ++ [b])%list
    by (by rewrite <- !app_assoc).
  rewrite (join_snoc ((S ++ ["node_modules"]) ++ [a]) b)
    by (by intros [_ ?]%app_eq_nil).
  rewrite (join_snoc (S ++ ["node_modules"]) a)
    by (by intros [_ ?]%app_eq_nil).
  by rewrite !app_assoc_s.
Qed.

Lemma glue_under_cacheRoot (n : string) :
  isSegment n = true ->
  fsKey E (JsString.join "/" ["node_modules"; n; n ++ ".js"]) =
  cacheRoot E ++ "/" ++ n ++ "/" ++ n ++ ".js".
Proof.
  intros Hn.
  assert (Hjs : isSegment (n ++ ".js") = true)
    by (apply isSegment_suffix; [done | done | simpl; lia]).
  unfold fsKey. rewrite <- (under_cacheRoot n (n ++ ".js")) by done.
  rewrite !resolve_eq by done. f_equal. f_equal.
  rewrite resolveSegs_joined by (done || by repeat constructor).
  by rewrite (resolveSegs_segments (cwd E) ["node_modules"; n; n ++ ".js"])
    by (done || by repeat constructor).
Qed.

Lemma endsWithSlash_js (a : string) : endsWithSlash (a ++ ".js") = false.
Proof.
  unfold endsWithSlash.
  assert (H : list_ascii_of_string (a ++ ".js") =
              (list_ascii_of_string (a ++ ".j") ++ ["s"%char])%list).
  { induction a as [|c a IH]; [done |].
    rewrite !app_cons_s. simpl. by rewrite IH. }
  by rewrite H, last_snoc.
Qed.

(** [path.join('./node_modules', n, n + '.js')] for a proper segment. *)
Lemma join_glue (n : string) :
  isSegment n = true ->
  Path.join ["./node_modules"; n; n ++ ".js"] =
  JsString.join "/" ["node_modules"; n; n ++ ".js"].
Proof.
  intros Hn.
  assert (Hjs : isSegment (n ++ ".js") = true)
    by (apply isSegment_suffix; [done | done | simpl; lia]).
  unfold Path.join, nonEmpty.
  rewrite !filter_cons, filter_nil.
  rewrite decide_True by done.
  rewrite decide_True by (by apply isSegment_nonempty).
  rewrite decide_True by (by apply isSegment_nonempty).
  change (JsString.join "/" ["./node_modules"; n; n ++ ".js"])
    with ("./node_modules" ++ "/" ++ n ++ "/" ++ (n ++ ".js")).
  unfold normalize.
  change (isEmpty ("./node_modules" ++ "/" ++ n ++ "/" ++ (n ++ ".js")))
    with false.
  change (startsWithChar slash
            ("./node_modules" ++ "/" ++ n ++ "/" ++ (n ++ ".js")))
    with false.
  cbv iota. cbn [negb].
  replace (endsWithSlash ("./node_modules" ++ "/" ++ n ++ "/" ++ (n ++ ".js")))
    with false.
  2:{ symmetry. rewrite <- !app_assoc_s. apply endsWithSlash_js. }
  unfold normalizeString.
  rewrite !split_app_slash.
  rewrite (split_noSlash n) by (by apply isSegment_noSlash).
  rewrite (split_noSlash (n ++ ".js")) by (by apply isSegment_noSlash).
  change (split slash "./node_modules") with ["."; "node_modules"].
  unfold normSegs.
  change (fold_left (normStep true)
            (["."; "node_modules"] ++ [n] ++ [n ++ ".js"]) [])
    with (fold_left (normStep true) [n; n ++ ".js"] ["node_modules"]).
  rewrite fold_normStep_segments by (by repeat constructor).
  reflexivity.
Qed.
End Layout.

Lemma resolveId_registered_witness :
  let R := vitePluginWasmPack (demoEnv false) (OneCrate "../rust/demo") in
  resolveId R "demo" = Some "@wasm-pack@demo" /\
  resolveId R "../rust/demo" = None.
Proof.
  split.
  - apply (proj1 (resolveId_registered (demoEnv false)
                    (OneCrate "../rust/demo") "demo")).
    exists "../rust/demo". split; [left | reflexivity].
  - apply (proj1 (proj2 (resolveId_registered (demoEnv false)
                           (OneCrate "../rust/demo") "../rust/demo"))).
    intros (p & Hin & Hp). apply list_elem_of_singleton in Hin. subst p.
    vm_compute in Hp. discriminate Hp.
Defined.

(** ** The identifier registry *)

(** C6: for every registered crate path, whatever else is registered and in
    whatever order, the derived name is the base name of the resolved path
    (its last segment), the artifact file name is the name followed by
    [_bg.wasm], the three tables hold exactly these values, and the disk path
    is [<cacheRoot>/<name>/<artifact file name>]. *)
Theorem registry_derivations (E : Env) (crates : CratesArg) (p : string) :
  Path.isAbsolute (cwd E) = true ->
  p ∈ normalizeCrates crates ->
  let R := vitePluginWasmPack E crates in
  let n := _crateName E p in
  n = Path.basename (Path.resolve (cwd E) [p]) /\
  n = default "" (last (Path.resolveSegs (cwd E) [p])) /\
  JsMap.get p (cratePathLookup R) = Some (n ++ "_bg.wasm") /\
  JsMap.get n (crateNameLookup R) = Some (n ++ "_bg.wasm") /\
  JsMap.get (n ++ "_bg.wasm") (wasmMap R) =
    Some {| path := Path.resolve (cwd E) ["node_modules"; n; n ++ "_bg.wasm"];
            name := n |} /\
  (n <> "" ->
   Path.resolve (cwd E) ["node_modules"; n; n ++ "_bg.wasm"] =
   cacheRoot E ++ "/" ++ n ++ "/" ++ n ++ "_bg.wasm").
Proof.
  intros Habs Hin R n. subst R n. split_and!.
  - reflexivity.
  - by apply crateName_last.
  - rewrite cratePathLookup_get.
    destruct (last_filter_Some (fun q => q = p) _ p Hin eq_refl)
      as (y & -> & -> & _). done.
  - rewrite crateNameLookup_get.
    destruct (last_filter_Some (fun q => _crateName E q = _crateName E p)
                _ p Hin eq_refl) as (y & -> & Hy & _).
    simpl. unfold wasmFileFor, wasmFileOf. by rewrite Hy.
  - rewrite wasmMap_get.
    destruct (last_filter_Some
                (fun q => wasmFileFor E q = _crateName E p ++ "_bg.wasm")
                _ p Hin eq_refl) as (y & -> & Hy & _).
    simpl. apply string_app_inv_tail in Hy.
    unfold infoOf, wasmFileOf. by rewrite Hy.
  - intros Hne. apply under_cacheRoot; [done | by apply crateName_segment |].
    apply isSegment_suffix; [by apply crateName_segment | done | simpl; lia].
Qed.

Lemma registry_derivations_witness :
  Path.isAbsolute (cwd (demoEnv false)) = true /\
  "../rust/demo" ∈ normalizeCrates (ManyCrates ["./crates/other"; "../rust/demo"]) /\
  let R := vitePluginWasmPack (demoEnv false)
             (ManyCrates ["./crates/other"; "../rust/demo"]) in
  JsMap.get "demo_bg.wasm" (wasmMap R) =
    Some {| path := "/proj/web/node_modules/demo/demo_bg.wasm"; name := "demo" |}.
Proof.
  split; [reflexivity |]. split; [right; left |].
  exact (proj1 (proj2 (proj2 (proj2 (proj2
    (registry_derivations (demoEnv false)
       (ManyCrates ["./crates/other"; "../rust/demo"]) "../rust/demo"
       eq_refl (list_elem_of_further _ _ _ (list_elem_of_here _ _)))))))).
Defined.

(** C10: construction never rejects a collision; after it, a key of any of
    the three tables reads the value written by the last crate path in the
    list that produced this key. *)
Theorem later_registration_overwrites (E : Env) (crates : CratesArg) (k : string) :
  let R := vitePluginWasmPack E crates in
  let paths := normalizeCrates crates in
  JsMap.get k (wasmMap R) =
    infoOf E <$> last (filter (fun p => wasmFileFor E p = k) paths) /\
  JsMap.get k (cratePathLookup R) =
    wasmFileFor E <$> last (filter (fun p => p = k) paths) /\
  JsMap.get k (crateNameLookup R) =
    wasmFileFor E <$> last (filter (fun p => _crateName E p = k) paths).
Proof.
  intros R paths. subst R paths.
  by rewrite wasmMap_get, cratePathLookup_get, crateNameLookup_get.
Qed.

(** Two crate directories with the same base name share one entry. *)
Example collision_tables :
  let R := vitePluginWasmPack (demoEnv false)
             (ManyCrates ["./a/demo"; "./b/demo"]) in
  wasmMap R = [("demo_bg.wasm",
                {| path := "/proj/web/node_modules/demo/demo_bg.wasm";
                   name := "demo" |})] /\
  crateNameLookup R = [("demo", "demo_bg.wasm")] /\
  cratePathLookup R = [("./a/demo", "demo_bg.wasm"); ("./b/demo", "demo_bg.wasm")].
Proof. by vm_compute. Qed.

(** ** The compiler invoker *)

Lemma runWasmPackBuild_frame (E : Env) (p : string) (o : option string)
      (s : Sys) :
  diags (_runWasmPackBuild E p o s).1 = diags s.
Proof.
  unfold _runWasmPackBuild.
  destruct (exec E (command E (default "pkg" o)) (disk s)) as [d r].
  by destruct (error r).
Qed.

Lemma runWasmPackBuild_spawned (E : Env) (p : string) (o : option string)
      (s : Sys) :
  spawned (_runWasmPackBuild E p o s).1 =
  (spawned s ++ [command E (default "pkg" o)])%list.
Proof.
  unfold _runWasmPackBuild.
  destruct (exec E (command E (default "pkg" o)) (disk s)) as [d r].
  by destruct (error r).
Qed.

(** C9: one call of [_runWasmPackBuild] starts exactly one command, and
    settles by what that one run reports: resolved with the text of the
    child's standard error when there is no error, rejected with
    [wasm-pack execution error: ] followed by the error otherwise; the
    output directory is [pkg] when none is given. *)
Theorem runWasmPackBuild_outcome (E : Env) (cratePath : string)
        (outDir : option string) (s : Sys) :
  let dir := default "pkg" outDir in
  let ran := exec E (command E dir) (disk s) in
  let res := _runWasmPackBuild E cratePath outDir s in
  spawned res.1 = (spawned s ++ [command E dir])%list /\
  disk res.1 = ran.1 /\
  diags res.1 = diags s /\
  res.2 = match error ran.2 with
          | None => Resolved (stderr ran.2)
          | Some e => Rejected ("wasm-pack execution error: " ++ e)
          end /\
  _runWasmPackBuild E cratePath None s =
  _runWasmPackBuild E cratePath (Some "pkg") s.
Proof.
  intros dir ran res. subst dir ran res. unfold _runWasmPackBuild.
  split_and!; [..| reflexivity];
    destruct (exec E (command E (default "pkg" outDir)) (disk s)) as [d r];
    simpl; by destruct (error r).
Qed.

(** C2: the command is the tool followed by
    [build --target web --out-dir <dir>], but the crate path takes no part in
    it: two crate paths give the same run.  For the crate [../rust/demo] of
    the concrete project the one command started names the output directory
    only, and is run in the working directory of the process. *)
Theorem runWasmPackBuild_ignores_cratePath :
  (forall (E : Env) (p1 p2 : string) (outDir : option string) (s : Sys),
      _runWasmPackBuild E p1 outDir s = _runWasmPackBuild E p2 outDir s) /\
  (forall (E : Env) (outDir : string),
      command E outDir =
      wasmPackPath E ++ " build --target web --out-dir " ++ outDir) /\
  spawned (prepareBuild (demoEnv false) "../rust/demo" sys0).1 =
    ["/proj/web/node_modules/vite-plugin-wasm-pack/node_modules/.bin/wasm-pack build --target web --out-dir /proj/web/node_modules/demo"] /\
  Path.resolve (cwd (demoEnv false)) ["../rust/demo"] = "/proj/rust/demo" /\
  JsString.indexOf "rust" demoCommand = None.
Proof.
  split_and!; [done | done | by vm_compute | by vm_compute | by vm_compute].
Qed.

(** ** [load] *)

(** C4: [load] of a prefixed identifier reads the file
    [path.join('./node_modules', n, n + '.js')], [n] being the identifier
    without the prefix, and settles with its text, or rejects when the read
    fails; for a proper segment [n] and an absolute working directory that
    file is [<cacheRoot>/<n>/<n>.js].  [load] settles with [undefined]
    exactly for the identifiers that do not start with the prefix. *)
Theorem load_glue_code (E : Env) (s : Sys) (id : string) :
  (forall n,
      load E (prefix ++ n) s =
      match readFile E (Path.join ["./node_modules"; n; n ++ ".js"]) (disk s) with
      | Resolved code => Resolved (Some code)
      | Rejected e => Rejected e
      end) /\
  (forall n,
      Path.isAbsolute (cwd E) = true -> Path.isSegment n = true ->
      load E (prefix ++ n) s =
      match files (disk s) !! (cacheRoot E ++ "/" ++ n ++ "/" ++ n ++ ".js") with
      | Some code => Resolved (Some code)
      | None => Rejected (ioError E (JsString.join "/" ["node_modules"; n; n ++ ".js"]))
      end) /\
  (load E id s = Resolved None <-> ~ exists n, id = prefix ++ n).
Proof.
  assert (Hgen : forall n,
      load E (prefix ++ n) s =
      match readFile E (Path.join ["./node_modules"; n; n ++ ".js"]) (disk s) with
      | Resolved code => Resolved (Some code)
      | Rejected e => Rejected e
      end).
  { intros n. unfold load.
    rewrite decide_True by (apply index0_prefix, prefix_app).
    by rewrite replace_prefix. }
  split_and!.
  - exact Hgen.
  - intros n Habs Hn. rewrite Hgen, join_glue by done.
    unfold readFile. rewrite glue_under_cacheRoot by done.
    by destruct (files (disk s) !! _).
  - split.
    + intros Hload [n ->]. rewrite Hgen in Hload.
      by destruct (readFile E _ (disk s)).
    + intros Hno. unfold load. rewrite decide_False; [done |].
      intros Hidx. apply Hno. apply prefix_split. by apply index0_prefix.
Qed.

Lemma load_glue_code_witness :
  let E := demoEnv false in
  let s := withDisk builtDisk sys0 in
  Path.isAbsolute (cwd E) = true /\
  Path.isSegment "demo" = true /\
  load E "@wasm-pack@demo" s = Resolved (Some "export default init;") /\
  (~ exists n, "demo" = prefix ++ n) /\
  load E "demo" s = Resolved None.
Proof.
  assert (Hplain : ~ exists n, "demo" = prefix ++ n)
    by (intros [n Hn]; discriminate Hn).
  split; [reflexivity |]. split; [reflexivity |].
  split; [|split; [exact Hplain |]].
  - exact (proj1 (proj2 (load_glue_code (demoEnv false)
                           (withDisk builtDisk sys0) ""))
             "demo" eq_refl eq_refl).
  - exact (proj2 (proj2 (proj2 (load_glue_code (demoEnv false)
                                  (withDisk builtDisk sys0) "demo"))) Hplain).
Defined.

(** ** The dev-server middleware *)

Section Serving.
Import JsString Path.
Variable E : Env.

(** A path that [path.resolve] returned names itself on disk. *)
Lemma fsKey_resolved (args : list string) :
  isAbsolute (cwd E) = true ->
  fsKey E (resolve (cwd E) args) = resolve (cwd E) args.
Proof.
  intros Habs. unfold fsKey.
  rewrite (resolve_eq (cwd E) [_]) by done. rewrite !resolve_eq by done.
  f_equal. f_equal.
  pose proof (resolveSegs_segments_all (cwd E) args) as Hall.
  set (S := resolveSegs (cwd E) args) in *.
  unfold resolveSegs at 1. simpl rev. rewrite resolveLoop_cons.
  change (isEmpty ("/" ++ JsString.join "/" S)) with false.
  change (startsWithChar slash ("/" ++ JsString.join "/" S)) with true.
  cbv iota. simpl fst.
  change ("/" ++ JsString.join "/" S) with ("" ++ "/" ++ JsString.join "/" S).
  rewrite !split_app_slash.
  change (split slash "") with [""].
  destruct (decide (S = [])) as [->|Hne]; [reflexivity |].
  rewrite split_join;
    [| done | eapply Forall_impl; [exact Hall | apply isSegment_noSlash]].
  by rewrite <- app_assoc, normSegs_app.
Qed.

(** Every key of the artifact table passes the extension test. *)
Lemma wasmMap_key_wasm (crates : CratesArg) (k : string) (e : CrateInfoType) :
  JsMap.get k (wasmMap (vitePluginWasmPack E crates)) = Some e ->
  endsWith (toLowerCase k) ".wasm" = true /\
  exists p, p ∈ normalizeCrates crates /\ k = wasmFileFor E p /\ e = infoOf E p.
Proof.
  rewrite wasmMap_get.
  destruct (last _) as [y|] eqn:Hlast; [|done].
  intros [= <-].
  apply last_Some_elem_of, list_elem_of_filter in Hlast as [<- Hin].
  split; [apply wasmFile_endsWith | by exists y].
Qed.
End Serving.

(** The request [/DEMO_BG.WASM] ends, case-insensitively, in the artifact
    file name [demo_bg.wasm] of a registered crate, yet the middleware calls
    [next()]: the table is read with the exact base name. *)
Lemma middleware_case_counterexample :
  let R := vitePluginWasmPack (demoEnv false) (OneCrate "../rust/demo") in
  JsMap.has "demo_bg.wasm" (wasmMap R) = true /\
  JsString.endsWith (JsString.toLowerCase "/DEMO_BG.WASM")
                    (JsString.toLowerCase "demo_bg.wasm") = true /\
  middleware (demoEnv false) R (Some "/DEMO_BG.WASM") builtDisk = Next.
Proof. by vm_compute. Qed.

(** A request without a URL string gets neither a response nor [next()]. *)
Lemma middleware_no_url (E : Env) (R : Registry) (d : Disk) :
  middleware E R None d = Unanswered.
Proof. reflexivity. Qed.

(** C3, as the code has it: when the base name of the request URL is,
    character for character, the artifact file name of a registered crate,
    the middleware answers 200 with the no-cache header, the content type
    [application/wasm] and the bytes of the artifact file as they are on
    disk; for every other URL string it calls [next()] and writes
    nothing. *)
Theorem middleware_serves_artifacts (E : Env) (crates : CratesArg)
        (url : string) (d : Disk) :
  let R := vitePluginWasmPack E crates in
  (forall p, p ∈ normalizeCrates crates ->
     Path.basename url = _crateName E p ++ "_bg.wasm" ->
     middleware E R (Some url) d =
     Respond {| status := 200;
                headers := [("Cache-Control", "no-cache, no-store, must-revalidate");
                            ("Content-Type", "application/wasm")];
                body := readFile E (path (infoOf E p)) d |}) /\
  (forall p bytes, Path.isAbsolute (cwd E) = true ->
     files d !! path (infoOf E p) = Some bytes ->
     readFile E (path (infoOf E p)) d = Resolved bytes) /\
  ((forall p, p ∈ normalizeCrates crates ->
      Path.basename url <> _crateName E p ++ "_bg.wasm") ->
   middleware E R (Some url) d = Next).
Proof.
  intros R. subst R. split_and!.
  - intros p Hin Hbase.
    destruct (registry_tables_entry E crates p Hin) as [Hget Hext].
    unfold middleware. rewrite Hbase.
    fold (wasmFileOf (_crateName E p)). fold (wasmFileFor E p).
    by rewrite Hget, Hext.
  - intros p bytes Habs Hfile. unfold readFile, infoOf in *. simpl in *.
    by rewrite fsKey_resolved, Hfile.
  - intros Hno. unfold middleware.
    destruct (JsMap.get _ _) as [e|] eqn:Hget; [|done].
    apply wasmMap_key_wasm in Hget as (_ & p & Hin & Hk & _).
    by destruct (Hno p Hin).
Qed.

Lemma middleware_serves_artifacts_witness :
  let E := demoEnv false in
  let R := vitePluginWasmPack E (OneCrate "../rust/demo") in
  "../rust/demo" ∈ normalizeCrates (OneCrate "../rust/demo") /\
  Path.basename "/assets/demo_bg.wasm" = _crateName E "../rust/demo" ++ "_bg.wasm" /\
  middleware E R (Some "/assets/demo_bg.wasm") builtDisk =
    Respond {| status := 200;
               headers := [("Cache-Control", "no-cache, no-store, must-revalidate");
                           ("Content-Type", "application/wasm")];
               body := Resolved "asm-bytes" |} /\
  (forall p, p ∈ normalizeCrates (OneCrate "../rust/demo") ->
     Path.basename "/src/main.ts" <> _crateName E p ++ "_bg.wasm") /\
  middleware E R (Some "/src/main.ts") builtDisk = Next.
Proof.
  assert (Hother : forall p, p ∈ normalizeCrates (OneCrate "../rust/demo") ->
            Path.basename "/src/main.ts"
            <> _crateName (demoEnv false) p ++ "_bg.wasm").
  { intros p Hin. apply list_elem_of_singleton in Hin. subst p.
    vm_compute. discriminate. }
  split; [left |]. split; [reflexivity |]. split; [|split; [exact Hother |]].
  - exact (proj1 (middleware_serves_artifacts (demoEnv false)
                    (OneCrate "../rust/demo") "/assets/demo_bg.wasm" builtDisk)
             "../rust/demo" (list_elem_of_here _ _) eq_refl).
  - exact (proj2 (proj2 (middleware_serves_artifacts (demoEnv false)
                    (OneCrate "../rust/demo") "/src/main.ts" builtDisk)) Hother).
Defined.

(** ** The asset emitter *)

Section Emitting.
Variable E : Env.

Lemma emitAll_readable (entries : list (string * CrateInfoType)) (s : Sys) :
  (forall k e, (k, e) ∈ entries ->
               exists bytes, readFile E (path e) (disk s) = Resolved bytes) ->
  exists emitted,
    emitAll E entries s =
      ({| disk := disk s; spawned := spawned s; diags := diags s;
          assets := assets s ++ emitted |}, Normal) /\
    Forall2 (emittedFor E (disk s)) entries emitted.
Proof.
  revert s. induction entries as [|[k e] entries IH]; intros s Hread.
  - exists []. split; [|constructor]. simpl. rewrite app_nil_r. by destruct s.
  - destruct (Hread k e) as [bytes Hbytes]; [left |].
    destruct (IH (emitFile {| fileName := "assets/" ++ k; source := bytes |} s))
      as (emitted & Hrun & Hall).
    { intros k' e' Hin. apply (Hread k' e'). by right. }
    exists ({| fileName := "assets/" ++ k; source := bytes |} :: emitted).
    split.
    + simpl. rewrite Hbytes, Hrun. simpl. by rewrite <- app_assoc.
    + constructor; [done | exact Hall].
Qed.

Lemma emitAll_missing (s : Sys) (k : string) (e : CrateInfoType)
      (rest : list (string * CrateInfoType)) :
  files (disk s) !! fsKey E (path e) = None ->
  emitAll E ((k, e) :: rest) s = (s, Throw (ioError E (path e))).
Proof. intros Hnone. simpl. unfold readFile. by rewrite Hnone. Qed.

Lemma emitted_fileNames (d : Disk) (entries : list (string * CrateInfoType))
      (emitted : list Asset) :
  Forall2 (emittedFor E d) entries emitted ->
  fileName <$> emitted = (fun k => "assets/" ++ k) <$> JsMap.keys entries.
Proof.
  unfold JsMap.keys.
  induction 1 as [|ke a entries emitted [Hname _] _ IH]; [done |].
  cbn [map]. by rewrite !fmap_cons, Hname, IH.
Qed.
End Emitting.

(** C8: when every artifact file of the table can be read, [buildEnd]
    returns normally and has emitted, for the entries of the table in their
    order, one asset each, named [assets/<artifact file name>] and carrying
    the bytes then on disk at the entry's path; no two of them share a
    name. *)
Theorem buildEnd_emits_each_artifact (E : Env) (crates : CratesArg) (s : Sys) :
  let R := vitePluginWasmPack E crates in
  (forall k e, (k, e) ∈ wasmMap R ->
               exists bytes, readFile E (path e) (disk s) = Resolved bytes) ->
  exists emitted,
    buildEnd E R s =
      ({| disk := disk s; spawned := spawned s; diags := diags s;
          assets := assets s ++ emitted |}, Normal) /\
    Forall2 (emittedFor E (disk s)) (wasmMap R) emitted /\
    NoDup (fileName <$> emitted).
Proof.
  intros R Hread.
  destruct (emitAll_readable E (wasmMap R) s Hread) as (emitted & Hrun & Hall).
  exists emitted. split_and!; [done | done |].
  rewrite (emitted_fileNames E _ _ _ Hall).
  apply NoDup_fmap_2; [|apply wasmMap_NoDup].
  intros a b Hab. by apply (inj (String.append "assets/")) in Hab.
Qed.

Lemma buildEnd_emits_each_artifact_witness :
  let E := demoEnv false in
  let R := vitePluginWasmPack E (OneCrate "../rust/demo") in
  (forall k e, (k, e) ∈ wasmMap R ->
     exists bytes, readFile E (path e) (disk (withDisk builtDisk sys0))
                   = Resolved bytes) /\
  exists emitted,
    buildEnd E R (withDisk builtDisk sys0) =
      ({| disk := builtDisk; spawned := []; diags := [];
          assets := [] ++ emitted |}, Normal) /\
    Forall2 (emittedFor E builtDisk) (wasmMap R) emitted /\
    NoDup (fileName <$> emitted).
Proof.
  assert (Hread : forall k e,
    (k, e) ∈ wasmMap (vitePluginWasmPack (demoEnv false) (OneCrate "../rust/demo")) ->
    exists bytes, readFile (demoEnv false) (path e)
                    (disk (withDisk builtDisk sys0)) = Resolved bytes).
  { intros k e Hin. vm_compute in Hin.
    apply list_elem_of_singleton in Hin. injection Hin as -> ->.
    exists "asm-bytes". reflexivity. }
  split; [exact Hread |].
  exact (buildEnd_emits_each_artifact (demoEnv false) (OneCrate "../rust/demo")
           (withDisk builtDisk sys0) Hread).
Defined.

(** ** The build orchestrator *)

Section Orchestrating.
Variable E : Env.

(** The three ways one pass can end, read off the code. *)
Lemma prepareBuild_cases (p : string) (s : Sys) :
  let ran := _runWasmPackBuild E p (Some (localPathOf E p)) s in
  (exists e,
      ran.2 = Rejected e /\
      prepareBuild E p s = error_ E (couldnt E (_crateName E p) e) ran.1) \/
  (exists out,
      ran.2 = Resolved out /\
      (forall m, readJson E (pkgJsonPathOf E p) (disk ran.1) = Resolved m ->
                 fsKey E (pkgJsonPathOf E p) ∈ readonly (disk ran.1)) /\
      prepareBuild E p s =
        error_ E (couldnt E (_crateName E p) (ioError E (pkgJsonPathOf E p)))
               (warn (built E p out) ran.1)) \/
  (exists out m,
      ran.2 = Resolved out /\
      readJson E (pkgJsonPathOf E p) (disk ran.1) = Resolved m /\
      (fsKey E (pkgJsonPathOf E p) ∉ readonly (disk ran.1)) /\
      prepareBuild E p s =
        (withDisk
           {| files := files (disk ran.1);
              manifests := <[fsKey E (pkgJsonPathOf E p) :=
                               JsMap.set "type" (JStr "module") m]>
                             (manifests (disk ran.1));
              readonly := readonly (disk ran.1) |}
           (warn (built E p out) ran.1), Normal)).
Proof.
  intros ran. subst ran. unfold prepareBuild.
  fold (localPathOf E p). fold (pkgJsonPathOf E p).
  destruct (_runWasmPackBuild E p (Some (localPathOf E p)) s) as [s1 [out|e]];
    simpl.
  - destruct (readJson E (pkgJsonPathOf E p) (disk (warn (built E p out) s1)))
      as [m|e] eqn:Hm; simpl in Hm; rewrite Hm.
    + unfold writeJson. simpl.
      destruct (decide (fsKey E (pkgJsonPathOf E p) ∈ readonly (disk s1)))
        as [Hro|Hro].
      * right; left. exists out. split_and!; [done | by intros ? ? | done].
      * right; right. by exists out, m.
    + assert (He : e = ioError E (pkgJsonPathOf E p)).
      { unfold readJson in Hm.
        destruct (manifests (disk s1) !! _); [done | by injection Hm]. }
      right; left. exists out. split_and!; [done | by intros ? ? | by rewrite He].
  - left. by exists e.
Qed.

Lemma reportedFailure_error (s s' : Sys) (pre : list Diag) (msg : string) :
  diags s' = (diags s ++ pre)%list ->
  reportedFailure s (error_ E msg s').1 = true.
Proof.
  intros Hd. unfold reportedFailure, error_. simpl.
  rewrite Hd, <- app_assoc, drop_app_length.
  rewrite existsb_app. simpl. by rewrite orb_true_r.
Qed.

Lemma reportedFailure_warn (s s' : Sys) (msg : string) (d : Disk) :
  diags s' = diags s ->
  reportedFailure s (withDisk d (warn msg s')) = false.
Proof.
  intros Hd. unfold reportedFailure, warn. simpl.
  by rewrite Hd, drop_app_length.
Qed.

Lemma error_hook (msg : string) (s : Sys) :
  last (diags (error_ E msg s).1) = Some (Error msg) /\
  disk (error_ E msg s).1 = disk s /\
  spawned (error_ E msg s).1 = spawned s /\
  (error_ E msg s).2 = if errorThrows E then Throw msg else Normal.
Proof. unfold error_. simpl. by rewrite last_snoc. Qed.

Lemma prepareBuild_returns (p : string) (s : Sys) :
  errorThrows E = false -> (prepareBuild E p s).2 = Normal.
Proof.
  intros Hhost.
  destruct (prepareBuild_cases p s)
    as [(e & _ & ->)|[(out & _ & _ & ->)|(out & m & _ & _ & _ & ->)]];
    [| |done]; unfold error_; simpl; by rewrite Hhost.
Qed.

(** With a host whose error hook returns, the loop visits every crate and
    [buildStart] returns. *)
Lemma buildLoop_returns (paths : list string) (s : Sys) :
  errorThrows E = false -> (buildLoop E paths s).2 = Normal.
Proof.
  intros Hhost. revert s. induction paths as [|p paths IH]; intros s; [done |].
  simpl. pose proof (prepareBuild_returns p s Hhost) as Hp.
  destruct (prepareBuild E p s) as [s' c]. simpl in Hp. subst c. apply IH.
Qed.

(** The loop over a list is the loop over its first part followed, when that
    part ends normally, by the loop over the rest. *)
Lemma buildLoop_app (pre post : list string) (s : Sys) :
  buildLoop E (pre ++ post) s =
  match buildLoop E pre s with
  | (s', Normal) => buildLoop E post s'
  | (s', Throw e) => (s', Throw e)
  end.
Proof.
  revert s. induction pre as [|p pre IH]; intros s; simpl; [done |].
  destruct (prepareBuild E p s) as [s' [|e]]; [apply IH | done].
Qed.
End Orchestrating.

(** C7: when the pass for a crate reports no failure, the manifest in the
    crate's output directory is, afterwards, the manifest the compile step
    left there with its [type] set to [module]: the other fields and the
    other files are as they were.  (The manifest the compile step leaves has
    no such field of its own, see the witness.) *)
Theorem prepareBuild_success_marks_module (E : Env) (p : string) (s : Sys) :
  let ran := _runWasmPackBuild E p (Some (localPathOf E p)) s in
  let res := prepareBuild E p s in
  reportedFailure s res.1 = false ->
  exists m0,
    readJson E (pkgJsonPathOf E p) (disk ran.1) = Resolved m0 /\
    readJson E (pkgJsonPathOf E p) (disk res.1) =
      Resolved (JsMap.set "type" (JStr "module") m0) /\
    JsMap.get "type" (JsMap.set "type" (JStr "module") m0) = Some (JStr "module") /\
    (forall k, k <> "type" ->
       JsMap.get k (JsMap.set "type" (JStr "module") m0) = JsMap.get k m0) /\
    (forall q, fsKey E q <> fsKey E (pkgJsonPathOf E p) ->
       readJson E q (disk res.1) = readJson E q (disk ran.1)) /\
    files (disk res.1) = files (disk ran.1) /\
    res.2 = Normal.
Proof.
  intros ran res Hok. subst ran res.
  pose proof (runWasmPackBuild_frame E p (Some (localPathOf E p)) s) as Hd.
  destruct (prepareBuild_cases E p s)
    as [(e & _ & Hrun)|[(out & _ & _ & Hrun)|(out & m & _ & Hread & _ & Hrun)]];
    rewrite Hrun in Hok |- *.
  - by rewrite (reportedFailure_error E s _ [] _) in Hok by (by rewrite app_nil_r).
  - rewrite (reportedFailure_error E s _ [Warn (built E p out)] _) in Hok; [done |].
    simpl. by rewrite Hd.
  - exists m. split_and!; [done | | | | | done | done].
    + unfold readJson. simpl. by rewrite lookup_insert_eq.
    + apply get_set_eq.
    + intros k Hk. by apply get_set_ne.
    + intros q Hq. unfold readJson. simpl. by rewrite lookup_insert_ne.
Qed.

Lemma prepareBuild_success_marks_module_witness :
  let E := demoEnv false in
  reportedFailure sys0 (prepareBuild E "../rust/demo" sys0).1 = false /\
  JsMap.get "type" demoManifest = None /\
  readJson E "/proj/web/node_modules/demo/package.json"
           (disk (prepareBuild E "../rust/demo" sys0).1) =
    Resolved [("name", JStr "demo"); ("version", JStr "0.1.0");
              ("files", JArr [JStr "demo_bg.wasm"; JStr "demo.js"]);
              ("type", JStr "module")].
Proof.
  split; [reflexivity |]. split; [reflexivity |].
  destruct (prepareBuild_success_marks_module (demoEnv false) "../rust/demo"
              sys0 eq_refl) as (m0 & Hbefore & Hafter & _).
  vm_compute in Hbefore. injection Hbefore as <-. exact Hafter.
Defined.

(** With Rollup's error hook, which throws, a crate whose build fails ends
    the pass: [buildStart] rejects and the crate registered after it is
    never compiled. *)
Lemma buildStart_abort_counterexample :
  let E := demoEnv true in
  let R := vitePluginWasmPack E (ManyCrates ["./crates/broken"; "../rust/demo"]) in
  let res := buildStart E R sys0 in
  res.2 = Throw (couldnt E "broken"
                   "wasm-pack execution error: Error: Command failed") /\
  spawned res.1 =
    [demoTool ++ " build --target web --out-dir /proj/web/node_modules/broken"] /\
(demoCommand ∉ spawned res.1) /\
  manifests (disk res.1) = ∅.
Proof.
  split_and!; [by vm_compute | by vm_compute | | by vm_compute].
  vm_compute. intros Hin. apply list_elem_of_singleton in Hin. discriminate Hin.
Qed.

(** What a reported failure comes with. *)
Lemma reported_failure_effects (E : Env) (p : string)
        (rest : list string) (s : Sys) :
  let ran := _runWasmPackBuild E p (Some (localPathOf E p)) s in
  let res := prepareBuild E p s in
  reportedFailure s res.1 = true ->
  let cause := match ran.2 with
               | Rejected e => e
               | Resolved _ => ioError E (pkgJsonPathOf E p)
               end in
  let msg := couldnt E (_crateName E p) cause in
  last (diags res.1) = Some (Error msg) /\
  disk res.1 = disk ran.1 /\
  spawned res.1 = (spawned s ++ [command E (localPathOf E p)])%list /\
  (errorThrows E = false ->
     res.2 = Normal /\
     buildLoop E (p :: rest) s = buildLoop E rest res.1 /\
     (buildLoop E (p :: rest) s).2 = Normal) /\
  (errorThrows E = true ->
     res.2 = Throw msg /\
     buildLoop E (p :: rest) s = (res.1, Throw msg)).
Proof.
  intros ran res Hfail cause msg. subst ran res cause msg.
  pose proof (runWasmPackBuild_frame E p (Some (localPathOf E p)) s) as Hd.
  pose proof (runWasmPackBuild_spawned E p (Some (localPathOf E p)) s) as Hsp.
  simpl in Hsp.
  assert (Hloop : forall s' c, prepareBuild E p s = (s', c) ->
            (errorThrows E = false -> c = Normal) ->
            (errorThrows E = false ->
               (s', c).2 = Normal /\
               buildLoop E (p :: rest) s = buildLoop E rest (s', c).1 /\
               (buildLoop E (p :: rest) s).2 = Normal)).
  { intros s' c Hrun Hc Hhost. rewrite (Hc Hhost) in *.
    split; [done |]. simpl. rewrite Hrun. split; [done |].
    by apply buildLoop_returns. }
  destruct (prepareBuild_cases E p s)
    as [(e & Hran & Hrun)|[(out & Hran & _ & Hrun)|(out & m & _ & _ & _ & Hrun)]].
  - rewrite Hran.
    destruct (error_hook E (couldnt E (_crateName E p) e)
                (_runWasmPackBuild E p (Some (localPathOf E p)) s).1)
      as (Hlast & Hdisk & Hspawn & Hcompl).
    rewrite <- Hrun in Hlast, Hdisk, Hspawn, Hcompl.
    split_and!; [done | done | by rewrite Hspawn | |].
    + destruct (prepareBuild E p s) as [s' c] eqn:Hpb.
      apply (Hloop s' c eq_refl). intros Hhost. simpl in Hcompl.
      by rewrite Hhost in Hcompl.
    + intros Hhost. rewrite Hhost in Hcompl. split; [done |].
      simpl. destruct (prepareBuild E p s) as [s' c]. simpl in Hcompl.
      by subst c.
  - rewrite Hran.
    destruct (error_hook E
                (couldnt E (_crateName E p) (ioError E (pkgJsonPathOf E p)))
                (warn (built E p out)
                   (_runWasmPackBuild E p (Some (localPathOf E p)) s).1))
      as (Hlast & Hdisk & Hspawn & Hcompl).
    rewrite <- Hrun in Hlast, Hdisk, Hspawn, Hcompl.
    split_and!; [done | done | by rewrite Hspawn | |].
    + destruct (prepareBuild E p s) as [s' c] eqn:Hpb.
      apply (Hloop s' c eq_refl). intros Hhost. simpl in Hcompl.
      by rewrite Hhost in Hcompl.
    + intros Hhost. rewrite Hhost in Hcompl. split; [done |].
      simpl. destruct (prepareBuild E p s) as [s' c]. simpl in Hcompl.
      by subst c.
  - rewrite Hrun in Hfail. simpl in Hfail.
    by rewrite reportedFailure_warn in Hfail.
Qed.

(** A pass reports a failure exactly when the compile step rejects or the
    manifest cannot be read or cannot be written. *)
Lemma prepareBuild_fails_reports (E : Env) (p : string) (s : Sys) :
  let ran := _runWasmPackBuild E p (Some (localPathOf E p)) s in
  ((exists e, ran.2 = Rejected e) \/
   (exists e, readJson E (pkgJsonPathOf E p) (disk ran.1) = Rejected e) \/
   (exists m e, (writeJson E (pkgJsonPathOf E p) m (disk ran.1)).2 = Rejected e))
  <-> reportedFailure s (prepareBuild E p s).1 = true.
Proof.
  intros ran. subst ran.
  pose proof (runWasmPackBuild_frame E p (Some (localPathOf E p)) s) as Hd.
  destruct (prepareBuild_cases E p s)
    as [(e & Hran & Hrun)|[(out & Hran & Hpatch & Hrun)
                          |(out & m & Hran & Hread & Hrw & Hrun)]];
    rewrite Hrun.
  - rewrite (reportedFailure_error E s _ [] _) by (by rewrite app_nil_r).
    split; [done |]. intros _. left. by exists e.
  - rewrite (reportedFailure_error E s _ [Warn (built E p out)] _)
      by (simpl; by rewrite Hd).
    split; [done |]. intros _. right.
    destruct (readJson E (pkgJsonPathOf E p) (disk _)) as [m|e] eqn:Hread.
    + right. exists m, (ioError E (pkgJsonPathOf E p)).
      unfold writeJson. by rewrite decide_True by (by apply (Hpatch m)).
    + left. by exists e.
  - simpl. rewrite reportedFailure_warn by done.
    split; [|done]. intros [[e He]|[[e He]|(m' & e & He)]].
    + rewrite Hran in He. done.
    + rewrite Hread in He. done.
    + unfold writeJson in He. by rewrite decide_False in He.
Qed.

(** C1, as the code has it: when the compile step of a crate rejects, or its
    manifest cannot be read or cannot be written, the pass hands the host an
    error naming the crate and the cause (the rejection of the compile step,
    or the failed manifest operation) as its last diagnostic, the disk is as
    the one command left it (the plugin wrote no manifest), and what follows
    is decided by the host's error hook: if it returns, the loop goes on with
    the next crate and [buildStart] returns normally; if it throws, the pass
    ends here and [buildStart] rejects with that error. *)
Theorem prepareBuild_failure_reported (E : Env) (p : string)
        (rest : list string) (s : Sys) :
  let ran := _runWasmPackBuild E p (Some (localPathOf E p)) s in
  let res := prepareBuild E p s in
  ((exists e, ran.2 = Rejected e) \/
   (exists e, readJson E (pkgJsonPathOf E p) (disk ran.1) = Rejected e) \/
   (exists m e, (writeJson E (pkgJsonPathOf E p) m (disk ran.1)).2 = Rejected e)) ->
  let cause := match ran.2 with
               | Rejected e => e
               | Resolved _ => ioError E (pkgJsonPathOf E p)
               end in
  let msg := couldnt E (_crateName E p) cause in
  reportedFailure s res.1 = true /\
  last (diags res.1) = Some (Error msg) /\
  disk res.1 = disk ran.1 /\
  spawned res.1 = (spawned s ++ [command E (localPathOf E p)])%list /\
  (errorThrows E = false ->
     res.2 = Normal /\
     buildLoop E (p :: rest) s = buildLoop E rest res.1 /\
     (buildLoop E (p :: rest) s).2 = Normal) /\
  (errorThrows E = true ->
     res.2 = Throw msg /\
     buildLoop E (p :: rest) s = (res.1, Throw msg)).
Proof.
  intros ran res Hfails cause msg. subst ran res cause msg.
  apply prepareBuild_fails_reports in Hfails.
  split; [exact Hfails |].
  exact (reported_failure_effects E p rest s Hfails).
Qed.

Lemma prepareBuild_failure_reported_witness :
  let paths := ["./crates/broken"; "../rust/demo"] in
  let cause := "wasm-pack execution error: Error: Command failed" in
  let manifest := "/proj/web/node_modules/demo/package.json" in
  (let E := demoEnv false in
   let res := prepareBuild E "./crates/broken" sys0 in
   (_runWasmPackBuild E "./crates/broken"
      (Some (localPathOf E "./crates/broken")) sys0).2 = Rejected cause /\
   errorThrows E = false /\
   diags res.1 = [Error (couldnt E "broken" cause)] /\
   manifests (disk res.1) = ∅ /\
   buildLoop E paths sys0 = buildLoop E ["../rust/demo"] res.1 /\
   (buildLoop E paths sys0).2 = Normal) /\
  (let E := demoEnv true in
   let res := prepareBuild E "./crates/broken" sys0 in
   errorThrows E = true /\
   buildLoop E paths sys0 = (res.1, Throw (couldnt E "broken" cause))) /\
  (let E := bareEnv in
   let res := prepareBuild E "../rust/demo" sys0 in
   readJson E (pkgJsonPathOf E "../rust/demo") emptyDisk
     = Rejected (ioError E manifest) /\
   reportedFailure sys0 res.1 = true /\
   last (diags res.1) = Some (Error (couldnt E "demo" (ioError E manifest))) /\
   disk res.1 = emptyDisk /\
   res.2 = Normal) /\
  (let E := demoEnv false in
   let res := prepareBuild E "../rust/demo" lockedSys in
   (writeJson E (pkgJsonPathOf E "../rust/demo") demoManifest
      (demoExec demoCommand (disk lockedSys)).1).2
     = Rejected (ioError E manifest) /\
   reportedFailure lockedSys res.1 = true /\
   last (diags res.1) = Some (Error (couldnt E "demo" (ioError E manifest))) /\
   manifests (disk res.1) !! manifest = Some demoManifest /\
   res.2 = Normal).
Proof.
  cbv zeta.
  destruct (prepareBuild_failure_reported (demoEnv false) "./crates/broken"
              ["../rust/demo"] sys0 (or_introl (ex_intro _ _ eq_refl)))
    as (_ & _ & _ & _ & Hreturns & _).
  destruct (Hreturns eq_refl) as (_ & Hnext & Hnormal).
  destruct (prepareBuild_failure_reported (demoEnv true) "./crates/broken"
              ["../rust/demo"] sys0 (or_introl (ex_intro _ _ eq_refl)))
    as (_ & _ & _ & _ & _ & Hthrows).
  destruct (Hthrows eq_refl) as (_ & Hstop).
  destruct (prepareBuild_failure_reported bareEnv "../rust/demo" [] sys0
              (or_intror (or_introl (ex_intro _ _ eq_refl))))
    as (Hrep1 & Hlast1 & Hdisk1 & _ & Hret1 & _).
  destruct (Hret1 eq_refl) as (Hn1 & _).
  destruct (prepareBuild_failure_reported (demoEnv false) "../rust/demo" []
              lockedSys
              (or_intror (or_intror
                 (ex_intro _ demoManifest (ex_intro _ _ eq_refl)))))
    as (Hrep2 & Hlast2 & _ & _ & Hret2 & _).
  destruct (Hret2 eq_refl) as (Hn2 & _).
  split_and!;
    [reflexivity | reflexivity | reflexivity | reflexivity
     | exact Hnext | exact Hnormal
     | reflexivity | exact Hstop
     | reflexivity | exact Hrep1 | exact Hlast1 | exact Hdisk1 | exact Hn1
     | reflexivity | exact Hrep2 | exact Hlast2 | reflexivity | exact Hn2].
Defined.

(** * Further properties of the plugin *)

(** ** Base names and crate names *)

Section NameFacts.
Import JsString Path.

Lemma noSlash_default_last (l : list string) :
  Forall (fun x => noSlash x = true) l -> noSlash (default "" (last l)) = true.
Proof.
  intros Hall. destruct (last l) as [x|] eqn:Hlast; [|done].
  apply last_Some_elem_of in Hlast. simpl.
  by apply (proj1 (Forall_forall _ _) Hall).
Qed.

Lemma basename_noSlash (s : string) : noSlash (basename s) = true.
Proof.
  unfold basename. apply noSlash_default_last.
  apply list.Forall_forall. intros x [_ Hx]%list_elem_of_filter.
  by apply (proj1 (Forall_forall _ _) (split_all_noSlash s)).
Qed.

(** The base name of [dir/w], and of [dir/w/], is [w]. *)
Lemma basename_under (dir w : string) :
  w <> "" -> noSlash w = true ->
  basename (dir ++ "/" ++ w) = w /\ basename (dir ++ "/" ++ w ++ "/" ++ "") = w.
Proof.
  intros Hne Hns. unfold basename.
  rewrite !split_app_slash, (split_noSlash w) by done.
  change (split slash "") with [""].
  rewrite !filter_app, !filter_cons, !filter_nil.
  rewrite decide_True by done.
  rewrite decide_False by (intros Hn; by apply Hn).
  by rewrite app_nil_r, last_snoc.
Qed.

Lemma wasmFileOf_plain (n : string) :
  noSlash n = true -> wasmFileOf n <> "" /\ noSlash (wasmFileOf n) = true.
Proof.
  intros Hn. unfold wasmFileOf. split; [|by rewrite noSlash_app, Hn].
  intros Heq. apply (f_equal String.length) in Heq.
  rewrite length_app in Heq. simpl in Heq. lia.
Qed.
End NameFacts.

(** X1: the name derived from a crate path never holds a separator; in a
    process with an absolute working directory it is empty (the path
    resolves to the root) or a proper segment, never [.] or [..], and the
    resolved, absolute form of a crate path derives the same name as the path
    itself. *)
Theorem crateName_shape (E : Env) (p : string) :
  Path.noSlash (_crateName E p) = true /\
  (Path.isAbsolute (cwd E) = true ->
     (_crateName E p = "" \/ Path.isSegment (_crateName E p) = true) /\
     _crateName E (Path.resolve (cwd E) [p]) = _crateName E p).
Proof.
  split; [apply basename_noSlash |]. intros Habs. split.
  - destruct (decide (_crateName E p = "")) as [?|Hne]; [by left | right].
    by apply crateName_segment.
  - unfold _crateName. f_equal. by apply fsKey_resolved.
Qed.

Lemma crateName_shape_witness :
  let E := demoEnv false in
  Path.isAbsolute (cwd E) = true /\
  Path.isSegment (_crateName E "../rust/demo/") = true /\
  _crateName E "/proj/rust/demo" = _crateName E "../rust/demo/".
Proof.
  split; [reflexivity |]. split; [reflexivity |].
  exact (proj2 (proj2 (crateName_shape (demoEnv false) "../rust/demo/") eq_refl)).
Defined.

(** X2: the middleware looks at the base name only: the artifact of a
    registered crate is served under every directory of the URL space, with
    or without a trailing separator. *)
Theorem middleware_any_directory (E : Env) (crates : CratesArg)
        (p dir : string) (d : Disk) :
  p ∈ normalizeCrates crates ->
  let R := vitePluginWasmPack E crates in
  let served :=
    Respond {| status := 200;
               headers := [("Cache-Control", "no-cache, no-store, must-revalidate");
                           ("Content-Type", "application/wasm")];
               body := readFile E (path (infoOf E p)) d |} in
  middleware E R (Some (dir ++ "/" ++ wasmFileFor E p)) d = served /\
  middleware E R (Some (dir ++ "/" ++ wasmFileFor E p ++ "/" ++ "")) d = served.
Proof.
  intros Hin R served. subst R served.
  destruct (wasmFileOf_plain (_crateName E p) (basename_noSlash _)) as [Hne Hns].
  destruct (basename_under dir (wasmFileFor E p) Hne Hns) as [Hb1 Hb2].
  destruct (registry_tables_entry E crates p Hin) as [Hget Hext].
  unfold middleware. by rewrite Hb1, Hb2, Hget, Hext.
Qed.

Lemma middleware_any_directory_witness :
  let E := demoEnv false in
  let R := vitePluginWasmPack E (OneCrate "../rust/demo") in
  "../rust/demo" ∈ normalizeCrates (OneCrate "../rust/demo") /\
  middleware E R (Some "/deep/er/demo_bg.wasm/") builtDisk =
    Respond {| status := 200;
               headers := [("Cache-Control", "no-cache, no-store, must-revalidate");
                           ("Content-Type", "application/wasm")];
               body := Resolved "asm-bytes" |}.
Proof.
  split; [left |].
  exact (proj2 (middleware_any_directory (demoEnv false) (OneCrate "../rust/demo")
                  "../rust/demo" "/deep/er" builtDisk (list_elem_of_here _ _))).
Defined.

(** ** More on the tables *)

Section TableFacts.
Variable E : Env.

Lemma cratePathLookup_entry (crates : CratesArg) (p : string) :
  p ∈ normalizeCrates crates ->
  JsMap.get p (cratePathLookup (vitePluginWasmPack E crates)) =
    Some (wasmFileFor E p).
Proof.
  intros Hin. rewrite cratePathLookup_get.
  by destruct (last_filter_Some (fun q => q = p) _ p Hin eq_refl)
    as (y & -> & -> & _).
Qed.

Lemma crateNameLookup_entry (crates : CratesArg) (p : string) :
  p ∈ normalizeCrates crates ->
  JsMap.get (_crateName E p) (crateNameLookup (vitePluginWasmPack E crates)) =
    Some (wasmFileFor E p).
Proof.
  intros Hin. rewrite crateNameLookup_get.
  destruct (last_filter_Some (fun q => _crateName E q = _crateName E p)
              _ p Hin eq_refl) as (y & -> & Hy & _).
  simpl. unfold wasmFileFor. by rewrite Hy.
Qed.

Lemma cratePathLookup_inv (crates : CratesArg) (p w : string) :
  JsMap.get p (cratePathLookup (vitePluginWasmPack E crates)) = Some w ->
  p ∈ normalizeCrates crates /\ w = wasmFileFor E p.
Proof.
  rewrite cratePathLookup_get.
  destruct (last _) as [y|] eqn:Hlast; [|done]. intros [= <-].
  by apply last_Some_elem_of, list_elem_of_filter in Hlast as [-> Hin].
Qed.

Lemma crateNameLookup_inv (crates : CratesArg) (n w : string) :
  JsMap.get n (crateNameLookup (vitePluginWasmPack E crates)) = Some w ->
  exists p, p ∈ normalizeCrates crates /\ _crateName E p = n /\
            w = wasmFileFor E p.
Proof.
  rewrite crateNameLookup_get.
  destruct (last _) as [y|] eqn:Hlast; [|done]. intros [= <-].
  apply last_Some_elem_of, list_elem_of_filter in Hlast as [Hn Hin].
  by exists y.
Qed.

(** The value a loop of [set] leaves under a key does not depend on the
    order of the iterations when it is a function of the key. *)
Lemma last_filter_perm {X V : Type} (kf : X -> string) (vf : X -> V)
      (l1 l2 : list X) (k : string) :
  (forall x y, kf x = kf y -> vf x = vf y) ->
  l1 ≡ₚ l2 ->
  vf <$> last (filter (fun x => kf x = k) l1) =
  vf <$> last (filter (fun x => kf x = k) l2).
Proof.
  intros Hfun Hperm.
  destruct (last (filter (fun x => kf x = k) l1)) as [y1|] eqn:H1;
    destruct (last (filter (fun x => kf x = k) l2)) as [y2|] eqn:H2; simpl.
  - apply last_Some_elem_of, list_elem_of_filter in H1 as [Hk1 _].
    apply last_Some_elem_of, list_elem_of_filter in H2 as [Hk2 _].
    f_equal. apply Hfun. congruence.
  - apply last_Some_elem_of, list_elem_of_filter in H1 as [Hk1 Hin1].
    rewrite Hperm in Hin1.
    by destruct (proj1 (last_filter_None _ _) H2 y1 Hin1).
  - apply last_Some_elem_of, list_elem_of_filter in H2 as [Hk2 Hin2].
    rewrite <- Hperm in Hin2.
    by destruct (proj1 (last_filter_None _ _) H1 y2 Hin2).
  - done.
Qed.

Lemma infoOf_by_file (x y : string) :
  wasmFileFor E x = wasmFileFor E y -> infoOf E x = infoOf E y.
Proof.
  unfold wasmFileFor, wasmFileOf, infoOf. intros Heq.
  apply string_app_inv_tail in Heq. by rewrite Heq.
Qed.

Lemma wasmMap_keys (crates : CratesArg) (k : string) :
  k ∈ JsMap.keys (wasmMap (vitePluginWasmPack E crates)) <->
  k ∈ (wasmFileOf <$> (_crateName E <$> normalizeCrates crates)).
Proof.
  rewrite <- has_keys. unfold JsMap.has. rewrite wasmMap_get.
  rewrite <- list_fmap_compose. split.
  - destruct (last _) as [y|] eqn:Hlast; [|done]. intros _.
    apply last_Some_elem_of, list_elem_of_filter in Hlast as [<- Hin].
    apply list_elem_of_fmap. by exists y.
  - intros (y & Hk & Hin)%list_elem_of_fmap.
    assert (k = wasmFileFor E y) as -> by done.
    by destruct (last_filter_Some
                   (fun q => wasmFileFor E q = wasmFileFor E y) _ y Hin eq_refl)
      as (z & -> & _).
Qed.
End TableFacts.

(** X3: the three tables agree with each other.  What the path table
    gives for a crate path is the key of that crate's entry in the artifact
    table and the value of its name in the name table; a name of the name
    table maps to name + [_bg.wasm], under which the artifact table holds an
    entry of that name; every entry of the artifact table stands under its
    name + [_bg.wasm], at [path.resolve('node_modules', name, key)], and its
    name is a key of the name table. *)
Theorem registry_consistent (E : Env) (crates : CratesArg) :
  let R := vitePluginWasmPack E crates in
  (forall p w, JsMap.get p (cratePathLookup R) = Some w ->
     JsMap.get w (wasmMap R) = Some (infoOf E p) /\
     JsMap.get (_crateName E p) (crateNameLookup R) = Some w) /\
  (forall n w, JsMap.get n (crateNameLookup R) = Some w ->
     w = n ++ "_bg.wasm" /\
     exists e, JsMap.get w (wasmMap R) = Some e /\ name e = n) /\
  (forall w e, JsMap.get w (wasmMap R) = Some e ->
     w = name e ++ "_bg.wasm" /\
     path e = Path.resolve (cwd E) ["node_modules"; name e; w] /\
     JsMap.get (name e) (crateNameLookup R) = Some w).
Proof.
  intros R. subst R. split_and!.
  - intros p w [Hin ->]%cratePathLookup_inv. split.
    + by apply registry_tables_entry.
    + by apply crateNameLookup_entry.
  - intros n w (p & Hin & <- & ->)%crateNameLookup_inv. split; [done |].
    exists (infoOf E p). split; [by apply registry_tables_entry | done].
  - intros w e (_ & p & Hin & -> & ->)%wasmMap_key_wasm.
    split_and!; [done | done |]. by apply crateNameLookup_entry.
Qed.

Lemma registry_consistent_witness :
  let E := demoEnv false in
  let R := vitePluginWasmPack E (ManyCrates ["./a/demo"; "../rust/demo"]) in
  JsMap.get "./a/demo" (cratePathLookup R) = Some "demo_bg.wasm" /\
  JsMap.get "demo_bg.wasm" (wasmMap R) = Some (infoOf E "./a/demo") /\
  JsMap.get "demo" (crateNameLookup R) = Some "demo_bg.wasm".
Proof.
  split; [reflexivity |].
  exact (proj1 (registry_consistent (demoEnv false)
                  (ManyCrates ["./a/demo"; "../rust/demo"]))
           "./a/demo" "demo_bg.wasm" eq_refl).
Defined.

(** X4: what the tables answer does not depend on the order in which the
    crate paths are given: two lists that are permutations of each other
    build tables with the same value under every key. *)
Theorem registry_order_independent (E : Env) (l1 l2 : list string) (k : string) :
  l1 ≡ₚ l2 ->
  let R1 := vitePluginWasmPack E (ManyCrates l1) in
  let R2 := vitePluginWasmPack E (ManyCrates l2) in
  JsMap.get k (wasmMap R1) = JsMap.get k (wasmMap R2) /\
  JsMap.get k (cratePathLookup R1) = JsMap.get k (cratePathLookup R2) /\
  JsMap.get k (crateNameLookup R1) = JsMap.get k (crateNameLookup R2) /\
  resolveId R1 k = resolveId R2 k.
Proof.
  intros Hperm R1 R2. subst R1 R2.
  assert (Hnames :
    JsMap.get k (crateNameLookup (vitePluginWasmPack E (ManyCrates l1))) =
    JsMap.get k (crateNameLookup (vitePluginWasmPack E (ManyCrates l2)))).
  { rewrite !crateNameLookup_get. simpl.
    apply last_filter_perm; [|done].
    intros x y Hxy. unfold wasmFileFor. by rewrite Hxy. }
  split_and!; [| |done|].
  - rewrite !wasmMap_get. simpl.
    apply last_filter_perm; [apply infoOf_by_file | done].
  - rewrite !cratePathLookup_get. simpl.
    apply (last_filter_perm (fun p => p)); [by intros x y -> | done].
  - unfold resolveId, JsMap.has. by rewrite Hnames.
Qed.

Lemma registry_order_independent_witness :
  let E := demoEnv false in
  ["./a/demo"; "../rust/other"] ≡ₚ ["../rust/other"; "./a/demo"] /\
  JsMap.get "demo_bg.wasm"
    (wasmMap (vitePluginWasmPack E (ManyCrates ["./a/demo"; "../rust/other"]))) =
  JsMap.get "demo_bg.wasm"
    (wasmMap (vitePluginWasmPack E (ManyCrates ["../rust/other"; "./a/demo"]))).
Proof.
  split; [apply perm_swap |].
  exact (proj1 (registry_order_independent (demoEnv false)
                  ["./a/demo"; "../rust/other"] ["../rust/other"; "./a/demo"]
                  "demo_bg.wasm" (perm_swap _ _ _))).
Defined.

(** X5: the artifact table has one entry for each distinct crate name, not
    one for each crate path. *)
Theorem wasmMap_size (E : Env) (crates : CratesArg) :
  length (wasmMap (vitePluginWasmPack E crates)) =
  length (remove_dups (_crateName E <$> normalizeCrates crates)).
Proof.
  transitivity (length (JsMap.keys (wasmMap (vitePluginWasmPack E crates)))).
  { unfold JsMap.keys. by rewrite length_map. }
  transitivity
    (length (wasmFileOf <$> remove_dups (_crateName E <$> normalizeCrates crates))).
  2:{ by rewrite length_fmap. }
  apply Permutation_length, NoDup_Permutation.
  - apply wasmMap_NoDup.
  - apply NoDup_fmap_2; [|apply NoDup_remove_dups].
    intros a b Hab. by apply string_app_inv_tail in Hab.
  - intros k. rewrite wasmMap_keys, !list_elem_of_fmap.
    by setoid_rewrite elem_of_remove_dups.
Qed.

(** ** From [resolveId] to [load] *)

(** X6: what [resolveId] returns is an identifier [load] takes for its own:
    stripping the prefix gives back the identifier that was resolved, and
    [load] settles with the text of
    [path.join('./node_modules', id, id + '.js')] or rejects, never with
    [undefined]. *)
Theorem resolveId_then_load (E : Env) (R : Registry) (id x : string) (s : Sys) :
  resolveId R id = Some x ->
  JsString.replace prefix "" x = id /\
  load E x s =
    match readFile E (Path.join ["./node_modules"; id; id ++ ".js"]) (disk s) with
    | Resolved code => Resolved (Some code)
    | Rejected e => Rejected e
    end /\
  load E x s <> Resolved None.
Proof.
  unfold resolveId. destruct (JsMap.has id (crateNameLookup R)); [|done].
  intros [= <-].
  assert (Hload : load E (prefix ++ id) s =
    match readFile E (Path.join ["./node_modules"; id; id ++ ".js"]) (disk s) with
    | Resolved code => Resolved (Some code)
    | Rejected e => Rejected e
    end).
  { unfold load. rewrite decide_True by (apply index0_prefix, prefix_app).
    by rewrite replace_prefix. }
  split_and!; [apply replace_prefix | done |].
  rewrite Hload. by destruct (readFile E _ (disk s)).
Qed.

Lemma resolveId_then_load_witness :
  let E := demoEnv false in
  let R := vitePluginWasmPack E (OneCrate "../rust/demo") in
  resolveId R "demo" = Some "@wasm-pack@demo" /\
  load E "@wasm-pack@demo" (withDisk builtDisk sys0) =
    Resolved (Some "export default init;").
Proof.
  split; [reflexivity |].
  exact (proj1 (proj2 (resolveId_then_load (demoEnv false)
                         (vitePluginWasmPack (demoEnv false) (OneCrate "../rust/demo"))
                         "demo" "@wasm-pack@demo" (withDisk builtDisk sys0) eq_refl))).
Defined.

(** ** More on the build orchestrator *)

Section PassFacts.
Variable E : Env.


Lemma set_same {V : Type} (m : JsMap.t V) (k : string) (v : V) :
  JsMap.get k m = Some v -> JsMap.set k v m = m.
Proof.
  induction m as [|[k' v'] m IH]; simpl; [done |].
  destruct (decide (k' = k)) as [->|Hne].
  - by intros [= ->].
  - intros Hget. by rewrite IH.
Qed.
End PassFacts.



(** X8: a pass depends on the crate path through the derived name only,
    but for the text of the [built] diagnostic: two crate paths with the same
    name start the same command, leave the same disk and end the same
    way. *)
Theorem prepareBuild_by_name (E : Env) (p1 p2 : string) (s : Sys) :
  _crateName E p1 = _crateName E p2 ->
  let r1 := prepareBuild E p1 s in
  let r2 := prepareBuild E p2 s in
  disk r1.1 = disk r2.1 /\ spawned r1.1 = spawned r2.1 /\
  assets r1.1 = assets r2.1 /\ r1.2 = r2.2 /\
  reportedFailure s r1.1 = reportedFailure s r2.1.
Proof.
  intros Hname r1 r2. subst r1 r2. unfold prepareBuild. rewrite Hname.
  change (_runWasmPackBuild E p1) with (_runWasmPackBuild E p2).
  pose proof (runWasmPackBuild_frame E p2
                (Some (Path.resolve (cwd E) ["node_modules"; _crateName E p2])) s)
    as Hd.
  destruct (_runWasmPackBuild E p2 _ s) as [s1 [out|e]]; [|done].
  simpl in Hd. simpl.
  destruct (readJson E _ (disk s1)) as [m|e].
  - destruct (writeJson E _ _ (disk s1)) as [d3 [[]|e]]; simpl.
    + split_and!; try done. unfold reportedFailure. simpl.
      by rewrite Hd, !drop_app_length.
    + split_and!; try done. unfold reportedFailure. simpl.
      by rewrite Hd, <- !app_assoc, !drop_app_length.
  - simpl. split_and!; try done. unfold reportedFailure. simpl.
    by rewrite Hd, <- !app_assoc, !drop_app_length.
Qed.

Lemma prepareBuild_by_name_witness :
  let E := demoEnv false in
  _crateName E "./a/demo" = _crateName E "../rust/demo" /\
  disk (prepareBuild E "./a/demo" sys0).1 =
  disk (prepareBuild E "../rust/demo" sys0).1.
Proof.
  split; [reflexivity |].
  exact (proj1 (prepareBuild_by_name (demoEnv false) "./a/demo" "../rust/demo"
                  sys0 eq_refl)).
Defined.

(** X9: the diagnostics of one pass.  A crate whose compile step rejects
    gets the error alone; a crate that compiles gets the [built] warning
    first, and, when the manifest cannot then be read or cannot be written,
    the error of that operation after it: such a crate is reported as built
    and as failed.  Only a crate whose manifest is read and written gets the
    warning alone. *)
Theorem prepareBuild_diagnostics (E : Env) (p : string) (s : Sys) :
  let ran := _runWasmPackBuild E p (Some (localPathOf E p)) s in
  let res := prepareBuild E p s in
  let n := _crateName E p in
  match ran.2 with
  | Rejected e => diags res.1 = (diags s ++ [Error (couldnt E n e)])%list
  | Resolved out =>
      match readJson E (pkgJsonPathOf E p) (disk ran.1) with
      | Rejected e =>
          diags res.1 =
            (diags s ++ [Warn (built E p out); Error (couldnt E n e)])%list
      | Resolved m =>
          match (writeJson E (pkgJsonPathOf E p)
                   (JsMap.set "type" (JStr "module") m) (disk ran.1)).2 with
          | Rejected e =>
              diags res.1 =
                (diags s ++ [Warn (built E p out); Error (couldnt E n e)])%list
          | Resolved _ => diags res.1 = (diags s ++ [Warn (built E p out)])%list
          end
      end
  end.
Proof.
  intros ran res n. subst ran res n.
  pose proof (runWasmPackBuild_frame E p (Some (localPathOf E p)) s) as Hd.
  unfold prepareBuild. fold (localPathOf E p). fold (pkgJsonPathOf E p).
  destruct (_runWasmPackBuild E p (Some (localPathOf E p)) s) as [s1 [out|e]];
    simpl in *.
  - destruct (readJson E (pkgJsonPathOf E p) (disk s1)) as [m|e].
    + destruct (writeJson E (pkgJsonPathOf E p) _ (disk s1)) as [d3 [[]|e]];
        simpl; by rewrite Hd, <- ?app_assoc.
    + simpl. by rewrite Hd, <- app_assoc.
  - by rewrite Hd.
Qed.

(** X10: what a pass writes itself.  After the command has run, the plugin
    changes at most one thing on disk, the manifest of the crate's output
    directory, and only by setting its [type]; it emits no asset. *)
Theorem prepareBuild_footprint (E : Env) (p : string) (s : Sys) :
  let ran := _runWasmPackBuild E p (Some (localPathOf E p)) s in
  let res := prepareBuild E p s in
  let key := fsKey E (pkgJsonPathOf E p) in
  files (disk res.1) = files (disk ran.1) /\
  readonly (disk res.1) = readonly (disk ran.1) /\
  assets res.1 = assets s /\
  (manifests (disk res.1) = manifests (disk ran.1) \/
   exists m, manifests (disk ran.1) !! key = Some m /\
             manifests (disk res.1) =
               <[key := JsMap.set "type" (JStr "module") m]>
                 (manifests (disk ran.1))).
Proof.
  intros ran res key. subst ran res key.
  assert (Ha : assets (_runWasmPackBuild E p (Some (localPathOf E p)) s).1
               = assets s).
  { unfold _runWasmPackBuild.
    destruct (exec E _ (disk s)) as [d r]. by destruct (error r). }
  destruct (prepareBuild_cases E p s)
    as [(e & _ & ->)|[(out & _ & _ & ->)|(out & m & _ & Hread & _ & ->)]];
    simpl; split_and!; try done; [by left | by left |].
  right. exists m. split; [|done].
  unfold readJson in Hread.
  by destruct (manifests _ !! _) as [m'|]; [injection Hread as -> |].
Qed.

(** X11: a manifest that already carries [type: module] reads the same
    after the pass as the command left it: the same fields with the same
    values in the same order. *)
Theorem prepareBuild_patch_idempotent (E : Env) (p : string) (s : Sys)
        (m : Manifest) :
  let ran := _runWasmPackBuild E p (Some (localPathOf E p)) s in
  readJson E (pkgJsonPathOf E p) (disk ran.1) = Resolved m ->
  JsMap.get "type" m = Some (JStr "module") ->
  readJson E (pkgJsonPathOf E p) (disk (prepareBuild E p s).1) = Resolved m.
Proof.
  intros ran Hread Htype. subst ran.
  destruct (prepareBuild_cases E p s)
    as [(e & _ & ->)|[(out & _ & _ & ->)|(out & m' & _ & Hread' & _ & ->)]];
    [done | done |].
  rewrite Hread in Hread'. injection Hread' as <-.
  unfold readJson. simpl. by rewrite lookup_insert_eq, set_same.
Qed.

Lemma prepareBuild_patch_idempotent_witness :
  let ran := _runWasmPackBuild moduleEnv "../rust/demo"
               (Some (localPathOf moduleEnv "../rust/demo")) sys0 in
  readJson moduleEnv (pkgJsonPathOf moduleEnv "../rust/demo") (disk ran.1)
    = Resolved moduleManifest /\
  JsMap.get "type" moduleManifest = Some (JStr "module") /\
  readJson moduleEnv (pkgJsonPathOf moduleEnv "../rust/demo")
           (disk (prepareBuild moduleEnv "../rust/demo" sys0).1)
    = Resolved moduleManifest.
Proof.
  split; [reflexivity |]. split; [reflexivity |].
  exact (prepareBuild_patch_idempotent moduleEnv "../rust/demo" sys0
           moduleManifest eq_refl eq_refl).
Defined.

(** X12: with a host whose error hook throws, a [buildStart] that returns
    normally has compiled every crate and reported no error: its diagnostics
    are one [built] warning for each crate path. *)
Theorem buildLoop_normal_all_built (E : Env) (paths : list string) (s : Sys) :
  errorThrows E = true ->
  (buildLoop E paths s).2 = Normal ->
  exists l, diags (buildLoop E paths s).1 = (diags s ++ l)%list /\
            Forall (fun d => isError d = false) l /\
            length l = length paths /\
            reportedFailure s (buildLoop E paths s).1 = false.
Proof.
  intros Hhost. revert s.
  assert (Hgoal : forall s, (buildLoop E paths s).2 = Normal ->
    exists l, diags (buildLoop E paths s).1 = (diags s ++ l)%list /\
              Forall (fun d => isError d = false) l /\
              length l = length paths).
  { induction paths as [|p paths IH]; intros s Hn.
    - exists []. simpl. by rewrite app_nil_r.
    - simpl in *.
      pose proof (runWasmPackBuild_frame E p (Some (localPathOf E p)) s) as Hd.
      destruct (prepareBuild_cases E p s)
        as [(e & _ & Hrun)|[(out & _ & _ & Hrun)|(out & m & _ & _ & _ & Hrun)]];
        rewrite Hrun in Hn |- *.
      + unfold error_ in Hn. simpl in Hn. by rewrite Hhost in Hn.
      + unfold error_ in Hn. simpl in Hn. by rewrite Hhost in Hn.
      + destruct (IH _ Hn) as (l & Hl & Hall & Hlen).
        exists (Warn (built E p out) :: l). split_and!.
        * rewrite Hl. simpl. by rewrite Hd, <- app_assoc.
        * by constructor.
        * simpl. by rewrite Hlen. }
  intros s Hn. destruct (Hgoal s Hn) as (l & Hl & Hall & Hlen).
  exists l. split_and!; [done | done | done |].
  unfold reportedFailure. rewrite Hl, drop_app_length.
  apply not_true_is_false. intros Hex.
  apply existsb_exists in Hex as (d & Hin & Hd).
  apply list_elem_of_In in Hin.
  pose proof (proj1 (Forall_forall _ _) Hall d Hin) as Hnot. congruence.
Qed.

Lemma buildLoop_normal_all_built_witness :
  let E := demoEnv true in
  errorThrows E = true /\
  (buildLoop E ["../rust/demo"; "./a/demo"] sys0).2 = Normal /\
  reportedFailure sys0 (buildLoop E ["../rust/demo"; "./a/demo"] sys0).1 = false.
Proof.
  split; [reflexivity |]. split; [reflexivity |].
  destruct (buildLoop_normal_all_built (demoEnv true)
              ["../rust/demo"; "./a/demo"] sys0 eq_refl eq_refl)
    as (l & _ & _ & _ & Hok).
  exact Hok.
Defined.

(** ** One directory for each crate *)

Section OutputDir.
Import JsString Path.
Variable E : Env.
Hypothesis cwd_abs : isAbsolute (cwd E) = true.

Lemma endsWithSlash_snoc (a : string) (c : ascii) :
  endsWithSlash (a ++ String c "") = Ascii.eqb c slash.
Proof.
  unfold endsWithSlash.
  assert (H : list_ascii_of_string (a ++ String c "") =
              (list_ascii_of_string a ++ [c])%list).
  { induction a as [|x a IH]; [done |].
    rewrite app_cons_s. simpl. by rewrite IH. }
  by rewrite H, last_snoc.
Qed.

(** [path.join(dir, 'package.json')] for a resolved directory other than
    the root. *)
Lemma join_package_json (S : list string) :
  S <> [] -> Forall (fun x => isSegment x = true) S ->
  Path.join ["/" ++ JsString.join "/" S; "package.json"] =
  ("/" ++ JsString.join "/" S) ++ "/" ++ "package.json".
Proof.
  intros Hne Hall. unfold Path.join, nonEmpty.
  rewrite !filter_cons, filter_nil.
  rewrite decide_True by done. rewrite decide_True by done.
  change (JsString.join "/" ["/" ++ JsString.join "/" S; "package.json"])
    with (("/" ++ JsString.join "/" S) ++ "/" ++ "package.json").
  unfold normalize.
  change (isEmpty (("/" ++ JsString.join "/" S) ++ "/" ++ "package.json"))
    with false.
  change (startsWithChar slash
            (("/" ++ JsString.join "/" S) ++ "/" ++ "package.json"))
    with true.
  cbv iota. cbn [negb].
  replace (endsWithSlash (("/" ++ JsString.join "/" S) ++ "/" ++ "package.json"))
    with false.
  2:{ symmetry.
      change "package.json" with ("package.jso" ++ "n").
      rewrite <- !app_assoc_s. apply endsWithSlash_snoc. }
  unfold normalizeString.
  change ("/" ++ JsString.join "/" S) with ("" ++ "/" ++ JsString.join "/" S).
  rewrite !split_app_slash.
  rewrite split_join
    by (done || (eapply Forall_impl; [exact Hall | apply isSegment_noSlash])).
  change (split slash "") with [""].
  change (split slash "package.json") with ["package.json"].
  unfold normSegs. rewrite <- app_assoc. cbn [app fold_left].
  rewrite normStep_empty.
  rewrite fold_normStep_segments
    by (apply Forall_app; split; [done | by repeat constructor]).
  rewrite app_nil_r, rev_involutive.
  rewrite join_snoc by done.
  replace (isEmpty (JsString.join "/" S ++ "/" ++ "package.json")) with false
    by (by destruct (JsString.join "/" S)).
  by rewrite !app_assoc_s.
Qed.

Lemma localPath_under (p : string) :
  _crateName E p <> "" ->
  localPathOf E p = cacheRoot E ++ "/" ++ _crateName E p.
Proof.
  intros Hne. pose proof (crateName_segment E cwd_abs p Hne) as Hseg.
  unfold localPathOf, cacheRoot. rewrite !resolve_eq by done.
  rewrite (resolveSegs_segments (cwd E) ["node_modules"; _crateName E p])
    by (done || by repeat constructor).
  rewrite (resolveSegs_segments (cwd E) ["node_modules"])
    by (done || by repeat constructor).
  set (S := resolveSegs (cwd E) []).
  replace (S ++ ["node_modules"; _crateName E p])%list
    with ((S ++ ["node_modules"]) ++ [_crateName E p])%list
    by (by rewrite <- app_assoc).
  rewrite join_snoc by (by intros [_ ?]%app_eq_nil).
  by rewrite !app_assoc_s.
Qed.

Lemma pkgJsonPath_under (p : string) :
  _crateName E p <> "" ->
  pkgJsonPathOf E p = localPathOf E p ++ "/" ++ "package.json" /\
  fsKey E (pkgJsonPathOf E p) = pkgJsonPathOf E p.
Proof.
  intros Hne. pose proof (crateName_segment E cwd_abs p Hne) as Hseg.
  assert (Hpkg : isSegment "package.json" = true) by reflexivity.
  assert (Hjoin : pkgJsonPathOf E p = localPathOf E p ++ "/" ++ "package.json").
  { unfold pkgJsonPathOf, localPathOf. rewrite resolve_eq by done.
    apply join_package_json; [|apply resolveSegs_segments_all].
    rewrite resolveSegs_segments by (done || by repeat constructor).
    by intros [_ ?]%app_eq_nil. }
  split; [done |].
  assert (Hres : pkgJsonPathOf E p =
                 resolve (cwd E) ["node_modules"; _crateName E p; "package.json"]).
  { rewrite Hjoin, localPath_under, under_cacheRoot by done.
    by rewrite !app_assoc_s. }
  rewrite Hres. by apply fsKey_resolved.
Qed.
End OutputDir.

(** X13: in a process with an absolute working directory, a crate with a
    non-empty name has one directory, [<cacheRoot>/<name>]: it is the output
    directory named in the command, the manifest patched is its
    [package.json], the artifact served and emitted is its
    [<name>_bg.wasm], and the glue code loaded is its [<name>.js]. *)
Theorem crate_output_directory (E : Env) (p : string) :
  Path.isAbsolute (cwd E) = true ->
  _crateName E p <> "" ->
  let n := _crateName E p in
  let dir := cacheRoot E ++ "/" ++ n in
  localPathOf E p = dir /\
  command E (localPathOf E p) =
    wasmPackPath E ++ " build --target web --out-dir " ++ dir /\
  fsKey E (pkgJsonPathOf E p) = dir ++ "/" ++ "package.json" /\
  fsKey E (path (infoOf E p)) = dir ++ "/" ++ n ++ "_bg.wasm" /\
  fsKey E (Path.join ["./node_modules"; n; n ++ ".js"]) = dir ++ "/" ++ n ++ ".js".
Proof.
  intros Habs Hne n dir. subst n dir.
  pose proof (crateName_segment E Habs p Hne) as Hseg.
  destruct (pkgJsonPath_under E Habs p Hne) as [Hpkg Hkey].
  split_and!.
  - by apply localPath_under.
  - unfold command. by rewrite localPath_under.
  - by rewrite Hkey, Hpkg, localPath_under.
  - unfold infoOf. simpl. rewrite fsKey_resolved by done.
    rewrite under_cacheRoot; [by rewrite !app_assoc_s | done | done |].
    apply isSegment_suffix; [done | done | simpl; lia].
  - rewrite join_glue, glue_under_cacheRoot by done. by rewrite !app_assoc_s.
Qed.

Lemma crate_output_directory_witness :
  let E := demoEnv false in
  Path.isAbsolute (cwd E) = true /\
  _crateName E "../rust/demo" <> "" /\
  localPathOf E "../rust/demo" = "/proj/web/node_modules/demo" /\
  fsKey E (pkgJsonPathOf E "../rust/demo") =
    "/proj/web/node_modules/demo/package.json".
Proof.
  assert (Hne : _crateName (demoEnv false) "../rust/demo" <> "")
    by (vm_compute; discriminate).
  split; [reflexivity |]. split; [exact Hne |].
  destruct (crate_output_directory (demoEnv false) "../rust/demo" eq_refl Hne)
    as (Hdir & _ & Hpkg & _).
  split; [exact Hdir | exact Hpkg].
Defined.

(** ** More on the asset emitter *)

Section EmitFacts.
Variable E : Env.

Lemma emitAll_app (pre post : list (string * CrateInfoType)) (s : Sys) :
  emitAll E (pre ++ post) s =
  match emitAll E pre s with
  | (s', Normal) => emitAll E post s'
  | (s', Throw e) => (s', Throw e)
  end.
Proof.
  revert s. induction pre as [|[k e] pre IH]; intros s; simpl; [done |].
  destruct (readFile E (path e) (disk s)); [apply IH | done].
Qed.
End EmitFacts.

(** X14: [buildEnd] stops at the first artifact file it cannot read: it
    throws the read error of that file, the assets of the entries before it
    have been emitted, none of the entries after it has, and nothing else in
    the state has changed. *)
Theorem buildEnd_stops_at_unreadable (E : Env) (R : Registry) (s : Sys)
        (pre post : list (string * CrateInfoType))
        (k : string) (e : CrateInfoType) :
  wasmMap R = (pre ++ (k, e) :: post)%list ->
  (forall k' e', (k', e') ∈ pre ->
     exists bytes, readFile E (path e') (disk s) = Resolved bytes) ->
  files (disk s) !! fsKey E (path e) = None ->
  exists emitted,
    buildEnd E R s =
      ({| disk := disk s; spawned := spawned s; diags := diags s;
          assets := assets s ++ emitted |}, Throw (ioError E (path e))) /\
    Forall2 (emittedFor E (disk s)) pre emitted.
Proof.
  intros Hmap Hread Hnone.
  destruct (emitAll_readable E pre s Hread) as (emitted & Hrun & Hall).
  exists emitted. split; [|done].
  unfold buildEnd. rewrite Hmap, emitAll_app, Hrun.
  by apply emitAll_missing.
Qed.

Lemma buildEnd_stops_at_unreadable_witness :
  let E := demoEnv false in
  let R := vitePluginWasmPack E (ManyCrates ["../rust/demo"; "./crates/broken"]) in
  let s := withDisk builtDisk sys0 in
  buildEnd E R s =
    ({| disk := builtDisk; spawned := []; diags := [];
        assets := [{| fileName := "assets/demo_bg.wasm"; source := "asm-bytes" |}] |},
     Throw (ioError E "/proj/web/node_modules/broken/broken_bg.wasm")).
Proof.
  cbv zeta.
  destruct (buildEnd_stops_at_unreadable (demoEnv false)
              (vitePluginWasmPack (demoEnv false)
                 (ManyCrates ["../rust/demo"; "./crates/broken"]))
              (withDisk builtDisk sys0)
              [("demo_bg.wasm", infoOf (demoEnv false) "../rust/demo")] []
              "broken_bg.wasm" (infoOf (demoEnv false) "./crates/broken"))
    as (emitted & Hrun & Hall).
  - reflexivity.
  - intros k' e' Hin. apply list_elem_of_singleton in Hin.
    injection Hin as -> ->. by exists "asm-bytes".
  - reflexivity.
  - rewrite Hrun.
    apply Forall2_cons_inv_l in Hall as (a & rest & [Hname Hsrc] & Hrest & ->).
    apply Forall2_nil_inv_l in Hrest as ->.
    destruct a as [fn src]. simpl in Hname, Hsrc. subst fn.
    vm_compute in Hsrc. injection Hsrc as <-. reflexivity.
Defined.

(** ** Edge cases of the names *)

(** X15: an identifier that holds a separator, such as a relative path or a
    scoped package name, is never resolved, whatever is registered: only
    bare crate names are. *)
Theorem resolveId_needs_bare_name (E : Env) (crates : CratesArg) (id : string) :
  Path.noSlash id = false ->
  resolveId (vitePluginWasmPack E crates) id = None.
Proof.
  intros Hslash. unfold resolveId, JsMap.has.
  destruct (JsMap.get id _) as [w|] eqn:Hget; [|done].
  apply crateNameLookup_inv in Hget as (p & _ & <- & _).
  pose proof (basename_noSlash (Path.resolve (cwd E) [p])) as Hns.
  unfold _crateName in Hslash. congruence.
Qed.

Lemma resolveId_needs_bare_name_witness :
  Path.noSlash "../rust/demo" = false /\
  resolveId (vitePluginWasmPack (demoEnv false) (OneCrate "../rust/demo"))
            "../rust/demo" = None.
Proof.
  split; [reflexivity |].
  exact (resolveId_needs_bare_name (demoEnv false) (OneCrate "../rust/demo")
           "../rust/demo" eq_refl).
Defined.

(** X16: a crate path that resolves to the root of the file system derives
    the empty name.  Its output directory is then the package cache itself,
    its artifact is [<cacheRoot>/_bg.wasm], and the empty identifier
    resolves to the bare prefix. *)
Theorem crate_at_root (E : Env) (crates : CratesArg) (p : string) :
  Path.isAbsolute (cwd E) = true ->
  p ∈ normalizeCrates crates ->
  _crateName E p = "" ->
  localPathOf E p = cacheRoot E /\
  wasmFileFor E p = "_bg.wasm" /\
  path (infoOf E p) = cacheRoot E ++ "/" ++ "_bg.wasm" /\
  resolveId (vitePluginWasmPack E crates) "" = Some prefix.
Proof.
  intros Habs Hin Hname. split_and!.
  - unfold localPathOf. by rewrite Hname.
  - unfold wasmFileFor. by rewrite Hname.
  - unfold infoOf. rewrite Hname. simpl.
    change (Path.resolve (cwd E) ["node_modules"; ""; wasmFileOf ""])
      with (Path.resolve (cwd E) ["node_modules"; "_bg.wasm"]).
    unfold cacheRoot. rewrite !resolve_eq by done.
    rewrite (resolveSegs_segments (cwd E) ["node_modules"; "_bg.wasm"])
      by (done || by repeat constructor).
    rewrite (resolveSegs_segments (cwd E) ["node_modules"])
      by (done || by repeat constructor).
    set (S := Path.resolveSegs (cwd E) []).
    replace (S ++ ["node_modules"; "_bg.wasm"])%list
      with ((S ++ ["node_modules"]) ++ ["_bg.wasm"])%list
      by (by rewrite <- app_assoc).
    rewrite join_snoc by (by intros [_ ?]%app_eq_nil).
    by rewrite !app_assoc_s.
  - unfold resolveId, JsMap.has.
    pose proof (crateNameLookup_entry E crates p Hin) as Hget.
    rewrite Hname in Hget. by rewrite Hget.
Qed.

Lemma crate_at_root_witness :
  let E := demoEnv false in
  Path.isAbsolute (cwd E) = true /\
  "../.." ∈ normalizeCrates (OneCrate "../..") /\
  _crateName E "../.." = "" /\
  localPathOf E "../.." = "/proj/web/node_modules" /\
  path (infoOf E "../..") = "/proj/web/node_modules/_bg.wasm".
Proof.
  split; [reflexivity |]. split; [left |]. split; [reflexivity |].
  destruct (crate_at_root (demoEnv false) (OneCrate "../..") "../.."
              eq_refl (list_elem_of_here _ _) eq_refl)
    as (Hdir & _ & Hpath & _).
  split; [exact Hdir | exact Hpath].
Defined.
